(** * Onymos order matching core: a shallow embedding of [onymos.py]

    The development follows the Python module top-down: the data classes
    ([Order], [OrderBook]), the global registry [orderBooks], the two
    operations [addOrder] and [matchOrder], an interleaving model of
    several [addOrder] calls running as threads, and the two load
    generators [simulateAddOrders] and [simulateMatchOrders]. *)

From Stdlib Require Import ZArith QArith Lia List Bool.
From stdpp Require Import base list.

Local Open Scope Z_scope.

(** ** Constants *)

Definition MAX_TICKERS : Z := 1024.
Definition MAX_ORDERS_PER_SIDE : Z := 1024.

(** ** Prices

    Prices are Python floats.  The program never does arithmetic on them;
    it only stores them and compares them with [<] and [>=], one operand
    being [float('inf')] at the start of the sell scan.  A float is
    therefore modelled by its position on the extended line: a finite
    value (an exact rational), one of the two infinities, or NaN, which
    compares false with everything. *)

Inductive pyfloat : Type :=
  | NaN
  | NegInf
  | Fin (q : Q)
  | PosInf.

(** [a < b] on floats. *)
Definition flt (a b : pyfloat) : bool :=
  match a, b with
  | NaN, _ | _, NaN => false
  | _, NegInf => false
  | NegInf, _ => true
  | PosInf, _ => false
  | Fin _, PosInf => true
  | Fin x, Fin y => match (x ?= y)%Q with Lt => true | _ => false end
  end.

(** [a <= b] on floats. *)
Definition fle (a b : pyfloat) : bool :=
  match a, b with
  | NaN, _ | _, NaN => false
  | NegInf, _ => true
  | _, PosInf => true
  | _, NegInf => false
  | PosInf, _ => false
  | Fin x, Fin y => match (x ?= y)%Q with Gt => false | _ => true end
  end.

(** [a >= b] on floats. *)
Definition fge (a b : pyfloat) : bool := fle b a.

(** ** Data classes *)

Record Order : Type := mkOrder {
  active : bool;          (* Order is active until matched *)
  order_type : Z;         (* 0 for Buy, 1 for Sell *)
  ticker : Z;
  quantity : Z;
  price : pyfloat
}.

(** [Order(order_type, ticker, quantity, price)]: the constructor sets
    [active] to [True]. *)
Definition new_Order (ot t q : Z) (p : pyfloat) : Order :=
  {| active := true; order_type := ot; ticker := t; quantity := q; price := p |}.

(** [order.active = False] *)
Definition deactivate (o : Order) : Order :=
  {| active := false; order_type := order_type o; ticker := ticker o;
     quantity := quantity o; price := price o |}.

(** A slot of a preallocated list: [None] is an empty slot. *)
Abbreviation slot := (option Order).

Record OrderBook : Type := mkBook {
  buy_orders : list slot;
  sell_orders : list slot;
  buy_count : Z;          (* Next insertion index for buy orders *)
  sell_count : Z          (* Next insertion index for sell orders *)
}.

(** [OrderBook()] *)
Definition new_OrderBook : OrderBook :=
  {| buy_orders := replicate (Z.to_nat MAX_ORDERS_PER_SIDE) None;
     sell_orders := replicate (Z.to_nat MAX_ORDERS_PER_SIDE) None;
     buy_count := 0;
     sell_count := 0 |}.

(** The line printed for a match,
    [Matched Ticker t: Buy at b with Sell at s (Quantity: q)],
    kept as the four values it is formatted from. *)
Record MatchLine : Type := mkLine {
  m_ticker : Z;
  m_buy : pyfloat;
  m_sell : pyfloat;
  m_quantity : Z
}.

(** The process state: the global list of order books and what has been
    printed so far (oldest line first). *)
Record world : Type := mkWorld {
  orderBooks : list OrderBook;
  stdout : list MatchLine
}.

(** [orderBooks = [OrderBook() for _ in range(MAX_TICKERS)]], nothing
    printed yet. *)
Definition init_world : world :=
  {| orderBooks := replicate (Z.to_nat MAX_TICKERS) new_OrderBook;
     stdout := [] |}.

(** The two sides of a book.  The Buy and the Sell branch of the source are
    the same statements over different attributes; [side] selects the
    attribute pair. *)
Inductive side : Type := Buy | Sell.

#[global] Instance side_eq_dec : EqDecision side.
Proof. solve_decision. Defined.

Definition orders_of (sd : side) (b : OrderBook) : list slot :=
  match sd with Buy => buy_orders b | Sell => sell_orders b end.

Definition count_of (sd : side) (b : OrderBook) : Z :=
  match sd with Buy => buy_count b | Sell => sell_count b end.

Definition set_orders (sd : side) (l : list slot) (b : OrderBook) : OrderBook :=
  match sd with
  | Buy => {| buy_orders := l; sell_orders := sell_orders b;
              buy_count := buy_count b; sell_count := sell_count b |}
  | Sell => {| buy_orders := buy_orders b; sell_orders := l;
               buy_count := buy_count b; sell_count := sell_count b |}
  end.

Definition set_count (sd : side) (c : Z) (b : OrderBook) : OrderBook :=
  match sd with
  | Buy => {| buy_orders := buy_orders b; sell_orders := sell_orders b;
              buy_count := c; sell_count := sell_count b |}
  | Sell => {| buy_orders := buy_orders b; sell_orders := sell_orders b;
               buy_count := buy_count b; sell_count := c |}
  end.

(** [if order_type == 0: ... else: ...] *)
Definition side_of (ot : Z) : side := if decide (ot = 0) then Buy else Sell.

(** ** Python list indexing

    [l[i]] with an integer [i]: positions [0 .. len-1] directly, positions
    [-len .. -1] counted from the end, [IndexError] everywhere else. *)

Definition py_index {A : Type} (l : list A) (i : Z) : option nat :=
  let n := Z.of_nat (length l) in
  if decide (0 <= i < n) then Some (Z.to_nat i)
  else if decide (- n <= i < 0) then Some (Z.to_nat (n + i))
  else None.

Definition py_getitem {A : Type} (l : list A) (i : Z) : option A :=
  match py_index l i with
  | Some k => l !! k
  | None => None
  end.

Definition py_setitem {A : Type} (l : list A) (i : Z) (x : A) : option (list A) :=
  match py_index l i with
  | Some k => Some (<[k := x]> l)
  | None => None
  end.

(** [range(n)] *)
Definition py_range (n : Z) : list Z := map Z.of_nat (seq 0 (Z.to_nat n)).

(** ** State and exceptions

    A computation runs on a mutable state [S] and either returns a value
    or raises; the state reached so far survives a raise, as in Python. *)

Inductive exn : Type := IndexError.

Inductive res (A : Type) : Type :=
  | Val (a : A)
  | Exc (e : exn).
Arguments Val {A} a.
Arguments Exc {A} e.

Definition M (S A : Type) : Type := S -> res A * S.

Definition ret {S A : Type} (a : A) : M S A := fun s => (Val a, s).

Definition raise {S A : Type} (e : exn) : M S A := fun s => (Exc e, s).

Definition bind {S A B : Type} (m : M S A) (k : A -> M S B) : M S B :=
  fun s =>
    match m s with
    | (Val a, s') => k a s'
    | (Exc e, s') => (Exc e, s')
    end.

Notation "'do' x <- m ;; k" := (bind m (fun x => k))
  (at level 10, x name, m at level 99, k at level 200).
Notation "'run' m ;; k" := (bind m (fun _ => k))
  (at level 10, m at level 99, k at level 200).

Definition get {S : Type} : M S S := fun s => (Val s, s).
Definition put {S : Type} (s : S) : M S unit := fun _ => (Val tt, s).

(** [option] results of list accesses become [IndexError]. *)
Definition or_IndexError {S A : Type} (o : option A) : M S A :=
  match o with
  | Some a => ret a
  | None => raise IndexError
  end.

(** ** Operations on one book

    After [book = orderBooks[ticker]] both functions work on that one
    object (and [matchOrder] on the console); [BM] is a computation on the
    pair of the two. *)

Definition bstate : Type := OrderBook * list MatchLine.
Definition BM (A : Type) : Type := M bstate A.

(** [book.buy_count] / [book.sell_count] *)
Definition load_count (sd : side) : BM Z :=
  fun s => (Val (count_of sd (fst s)), s).

(** [book.buy_orders[i]] / [book.sell_orders[i]] *)
Definition load_slot (sd : side) (i : Z) : BM slot :=
  do s <- get ;; or_IndexError (py_getitem (orders_of sd (fst s)) i).

(** [book.buy_orders[i] = x] / [book.sell_orders[i] = x] *)
Definition store_slot (sd : side) (i : Z) (x : slot) : BM unit :=
  do s <- get ;;
  do l <- or_IndexError (py_setitem (orders_of sd (fst s)) i x) ;;
  put (set_orders sd l (fst s), snd s).

(** [book.buy_count += 1] / [book.sell_count += 1] *)
Definition incr_count (sd : side) : BM unit :=
  fun s => (Val tt, (set_count sd (count_of sd (fst s) + 1) (fst s), snd s)).

(** [print(...)] *)
Definition print (l : MatchLine) : BM unit :=
  fun s => (Val tt, (fst s, snd s ++ [l])).

(** Runs a book computation on [orderBooks[ticker]]; the book is a shared
    object, so whatever the computation did to it is visible in the
    registry afterwards, also when it raised. *)
Definition on_book {A : Type} (t : Z) (m : BM A) : M world A :=
  fun w =>
    match py_index (orderBooks w) t with
    | Some k =>
        match orderBooks w !! k with
        | Some b =>
            let '(r, (b', out')) := m (b, stdout w) in
            (r, {| orderBooks := <[k := b']> (orderBooks w); stdout := out' |})
        | None => (Exc IndexError, w)
        end
    | None => (Exc IndexError, w)
    end.

(** ** addOrder *)

(** What a call hands back.  Both functions of the module end in a bare
    [return] or fall off their last statement, so the value is always
    Python's [None]; [Outcome] holds the outcome values the interface
    description names, which a caller would have to receive to tell them
    apart. *)
Inductive outcome : Type :=
  | Inserted
  | InvalidTicker
  | OrderBookFull
  | NoMatch
  | Matched (l : MatchLine).

Inductive retval : Type :=
  | PyNone
  | Outcome (o : outcome).

(** The three statements of one branch of [addOrder], in program order:
    read the counter, store the new order, advance the counter. *)
Definition add_side (sd : side) (ot t q : Z) (p : pyfloat) : BM unit :=
  do index <- load_count sd ;;
  if decide (index < MAX_ORDERS_PER_SIDE) then
    run store_slot sd index (Some (new_Order ot t q p)) ;;
    incr_count sd
  else ret tt.

Definition addOrder (ot t q : Z) (p : pyfloat) : M world retval :=
  if decide (t < 0 \/ t >= MAX_TICKERS) then ret PyNone   (* Invalid ticker *)
  else
    run on_book t (if decide (ot = 0) then add_side Buy ot t q p
                   else add_side Sell ot t q p) ;;
    ret PyNone.

(** ** matchOrder *)

(** [order.active = False], where [order] is the object found in slot [i]
    of one side.  An attribute write on an object already in hand cannot
    raise. *)
Definition clear_active (sd : side) (i : Z) : BM unit :=
  fun s =>
    match py_index (orders_of sd (fst s)) i with
    | Some k =>
        (Val tt,
         (set_orders sd (alter (fmap deactivate) k (orders_of sd (fst s))) (fst s),
          snd s))
    | None => (Val tt, s)
    end.

(** The first loop, [for i in range(book.sell_count)], over the indices
    that are left, with the two loop variables it maintains. *)
Fixpoint sell_scan (idxs : list Z) (lowest_sell_price : pyfloat)
    (lowest_sell_index : Z) : BM (pyfloat * Z) :=
  match idxs with
  | [] => ret (lowest_sell_price, lowest_sell_index)
  | i :: rest =>
      do order <- load_slot Sell i ;;
      match order with
      | Some o =>
          if active o then
            if flt (price o) lowest_sell_price
            then sell_scan rest (price o) i
            else sell_scan rest lowest_sell_price lowest_sell_index
          else sell_scan rest lowest_sell_price lowest_sell_index
      | None => sell_scan rest lowest_sell_price lowest_sell_index
      end
  end.

(** The second loop, [for j in range(book.buy_count)].  The result is the
    index at which the loop left through [break], [None] when it ran to
    its end; the source has no use for it, the theorems name the chosen
    buy order by it.  The inner [if order.active] reads the flag the outer
    test has just read. *)
Fixpoint buy_scan (t : Z) (lowest_sell_price : pyfloat) (lowest_sell_index : Z)
    (idxs : list Z) : BM (option Z) :=
  match idxs with
  | [] => ret None
  | j :: rest =>
      do order <- load_slot Buy j ;;
      match order with
      | Some o =>
          if active o then
            if fge (price o) lowest_sell_price then
              if active o then
                run clear_active Buy j ;;
                do sell_order <- load_slot Sell lowest_sell_index ;;
                match sell_order with
                | Some so =>
                    if active so then
                      run clear_active Sell lowest_sell_index ;;
                      run print {| m_ticker := t; m_buy := price o;
                                   m_sell := lowest_sell_price;
                                   m_quantity := quantity o |} ;;
                      ret (Some j)
                    else buy_scan t lowest_sell_price lowest_sell_index rest
                | None => buy_scan t lowest_sell_price lowest_sell_index rest
                end
              else buy_scan t lowest_sell_price lowest_sell_index rest
            else buy_scan t lowest_sell_price lowest_sell_index rest
          else buy_scan t lowest_sell_price lowest_sell_index rest
      | None => buy_scan t lowest_sell_price lowest_sell_index rest
      end
  end.

(** [lowest_sell_price = float('inf'); lowest_sell_index = -1] and the
    first loop. *)
Definition find_lowest_sell : BM (pyfloat * Z) :=
  do n <- load_count Sell ;;
  sell_scan (py_range n) PosInf (-1).

(** The body of [matchOrder] once the book is in hand; the result is the
    pair (buy index, sell index) of the match made, if any. *)
Definition match_book (t : Z) : BM (option (Z * Z)) :=
  do low <- find_lowest_sell ;;
  if decide (snd low = -1) then ret None   (* No active sell orders available *)
  else
    do n <- load_count Buy ;;
    do j <- buy_scan t (fst low) (snd low) (py_range n) ;;
    ret (option_map (fun j => (j, snd low)) j).

Definition matchOrder (t : Z) : M world retval :=
  if decide (t < 0 \/ t >= MAX_TICKERS) then ret PyNone
  else
    run on_book t (match_book t) ;;
    ret PyNone.

(** ** Sequences of calls *)

Inductive call : Type :=
  | AddOrder (ot t q : Z) (p : pyfloat)
  | MatchOrder (t : Z).

Definition exec (c : call) : M world retval :=
  match c with
  | AddOrder ot t q p => addOrder ot t q p
  | MatchOrder t => matchOrder t
  end.

(** The calls of a list, one after the other; a raise ends the sequence. *)
Fixpoint exec_all (cs : list call) : M world unit :=
  match cs with
  | [] => ret tt
  | c :: rest => run exec c ;; exec_all rest
  end.

(** The worlds the module can be in: the one it starts in, and the world
    after one more call. *)
Inductive reachable : world -> Prop :=
  | reach_init : reachable init_world
  | reach_call (c : call) (w : world) :
      reachable w -> reachable (snd (exec c w)).

(** ** Threads

    [addOrder] takes no lock.  Between its statements that touch the
    shared book another thread may run: after [index = book.buy_count]
    comes the call [Order(...)], and after the store comes the increment.
    A call in progress is therefore in one of four places. *)

Inductive thread : Type :=
  | Entering (ot t q : Z) (p : pyfloat)
  | HoldsIndex (sd : side) (ot t q : Z) (p : pyfloat) (index : Z)
  | HasStored (sd : side) (t : Z)
  | Finished.

(** The next piece of a call, run without interruption: the guard, the
    read of the counter and its test; the store; the increment (taken as
    one step, which favours the program). *)
Definition thread_step (th : thread) : M world thread :=
  match th with
  | Entering ot t q p =>
      if decide (t < 0 \/ t >= MAX_TICKERS) then ret Finished
      else
        do index <- on_book t (load_count (side_of ot)) ;;
        if decide (index < MAX_ORDERS_PER_SIDE)
        then ret (HoldsIndex (side_of ot) ot t q p index)
        else ret Finished
  | HoldsIndex sd ot t q p index =>
      run on_book t (store_slot sd index (Some (new_Order ot t q p))) ;;
      ret (HasStored sd t)
  | HasStored sd t =>
      run on_book t (incr_count sd) ;;
      ret Finished
  | Finished => ret Finished
  end.

(** Thread [i] of the pool takes one step; a thread that raises is over. *)
Definition pool_step (i : nat) (pool : list thread) (w : world) :
    list thread * world :=
  match pool !! i with
  | Some th =>
      match thread_step th w with
      | (Val th', w') => (<[i := th']> pool, w')
      | (Exc _, w') => (<[i := Finished]> pool, w')
      end
  | None => (pool, w)
  end.

(** A schedule names the thread that moves next, step after step. *)
Fixpoint run_schedule (sch : list nat) (pool : list thread) (w : world) :
    list thread * world :=
  match sch with
  | [] => (pool, w)
  | i :: rest =>
      let '(pool', w') := pool_step i pool w in
      run_schedule rest pool' w'
  end.

(** ** The load generators

    [simulateAddOrders] and [simulateMatchOrders] take their arguments
    from [random].  What the generator returns is not determined by the
    program, so it enters the model as an oracle: [rnd i] holds the values
    drawn in iteration [i] of the loop, in the order of the calls to
    [random.randint] and [random.uniform]. *)

Record draw : Type := mkDraw {
  d_type : Z;             (* random.randint(0, 1) *)
  d_ticker : Z;           (* random.randint(0, MAX_TICKERS - 1) *)
  d_quantity : Z;         (* random.randint(1, 100) *)
  d_price : pyfloat       (* random.uniform(0.1, 100.0) *)
}.

(** [for _ in range(numOrders)] over the iterations that are left. *)
Fixpoint simulateAddOrders_loop (rnd : Z -> draw) (idxs : list Z) : M world unit :=
  match idxs with
  | [] => ret tt
  | i :: rest =>
      run addOrder (d_type (rnd i)) (d_ticker (rnd i)) (d_quantity (rnd i))
            (d_price (rnd i)) ;;
      simulateAddOrders_loop rnd rest
  end.

Definition simulateAddOrders (numOrders : Z) (rnd : Z -> draw) : M world retval :=
  run simulateAddOrders_loop rnd (py_range numOrders) ;;
  ret PyNone.

(** [for _ in range(numMatches)]; [rnd i] is the ticker drawn in
    iteration [i]. *)
Fixpoint simulateMatchOrders_loop (rnd : Z -> Z) (idxs : list Z) : M world unit :=
  match idxs with
  | [] => ret tt
  | i :: rest =>
      run matchOrder (rnd i) ;;
      simulateMatchOrders_loop rnd rest
  end.

Definition simulateMatchOrders (numMatches : Z) (rnd : Z -> Z) : M world retval :=
  run simulateMatchOrders_loop rnd (py_range numMatches) ;;
  ret PyNone.

(** * Vocabulary of the statements *)

(** ** Reading the registry *)

Definition valid_ticker (t : Z) : Prop := 0 <= t < MAX_TICKERS.

(** Reading a slot of the registry: the book of ticker [t], side [sd],
    position [i]. *)
Definition slot_at (w : world) (t : nat) (sd : side) (i : nat) : option slot :=
  match orderBooks w !! t with
  | Some b => orders_of sd b !! i
  | None => None
  end.

(** The book a valid ticker denotes. *)
Definition book_of (w : world) (t : Z) : OrderBook :=
  default new_OrderBook (orderBooks w !! Z.to_nat t).

(** The registry with the book of ticker [k] replaced and the console
    as given. *)
Definition with_book (k : nat) (s : bstate) (w : world) : world :=
  {| orderBooks := <[k := fst s]> (orderBooks w); stdout := snd s |}.

(** ** Books after an insertion and after a settlement *)

(** The book after [addOrder] has appended [o] on side [sd]. *)
Definition appended (sd : side) (o : Order) (b : OrderBook) : OrderBook :=
  set_count sd (count_of sd b + 1)
    (set_orders sd (<[Z.to_nat (count_of sd b) := Some o]> (orders_of sd b)) b).

(** The test the second loop applies to a buy order. *)
Definition eligible (lsp : pyfloat) (o : Order) : bool :=
  active o && fge (price o) lsp.

(** The state after the settlement of buy slot [j] (holding [bo]) against
    sell slot [ks]: both flags cleared, one line printed. *)
Definition settled (t : Z) (lsp : pyfloat) (j ks : nat) (bo : Order)
    (s : bstate) : bstate :=
  (set_orders Sell (alter (fmap deactivate) ks (sell_orders (fst s)))
     (set_orders Buy (alter (fmap deactivate) j (buy_orders (fst s))) (fst s)),
   snd s ++ [{| m_ticker := t; m_buy := price bo; m_sell := lsp;
                m_quantity := quantity bo |}]).

(** ** The choice of the sell scan *)

(** [o], found in slot [k], is the lowest-priced active order among the
    first [n] slots of [l], and the first one at that price: its price is
    a price the scan can pick up (below [+inf]), no active order is
    strictly cheaper, and none before [k] is as cheap. *)
Definition lowest_active (l : list slot) (n k : nat) (o : Order) : Prop :=
  (k < n)%nat /\ l !! k = Some (Some o) /\ active o = true /\
  flt (price o) PosInf = true /\
  forall (k' : nat) (o' : Order),
    (k' < n)%nat -> l !! k' = Some (Some o') -> active o' = true ->
    flt (price o') (price o) = false /\
    ((k' < k)%nat -> fle (price o') (price o) = false).

(** ** Well-formed books *)

(** One side of a book as [OrderBook.__init__] and [addOrder] leave it:
    the list keeps its preallocated length, the counter stays within it,
    the slots below the counter hold orders and the others are empty. *)
Definition wf_side (sd : side) (b : OrderBook) : Prop :=
  length (orders_of sd b) = Z.to_nat MAX_ORDERS_PER_SIDE /\
  0 <= count_of sd b <= MAX_ORDERS_PER_SIDE /\
  (forall i : nat, Z.of_nat i < count_of sd b ->
     exists o : Order, orders_of sd b !! i = Some (Some o)) /\
  (forall i : nat, count_of sd b <= Z.of_nat i < MAX_ORDERS_PER_SIDE ->
     orders_of sd b !! i = Some None).

Definition wf_book (b : OrderBook) : Prop := forall sd : side, wf_side sd b.

Definition wf_world (w : world) : Prop :=
  length (orderBooks w) = Z.to_nat MAX_TICKERS /\
  forall (t : nat) (b : OrderBook), orderBooks w !! t = Some b -> wf_book b.

(** ** Effects of a call, and how orders and books evolve *)

(** The three things a call can do to a well-formed registry: nothing,
    append one order, or settle one pair. *)
Inductive effect (w : world) : call -> world -> Prop :=
  | effect_none (c : call) : effect w c w
  | effect_add (ot t q : Z) (p : pyfloat) (b : OrderBook) :
      valid_ticker t -> orderBooks w !! Z.to_nat t = Some b ->
      count_of (side_of ot) b < MAX_ORDERS_PER_SIDE ->
      effect w (AddOrder ot t q p)
        (with_book (Z.to_nat t)
           (appended (side_of ot) (new_Order ot t q p) b, stdout w) w)
  | effect_settle (t : Z) (b : OrderBook) (ks : nat) (so : Order)
      (j : nat) (bo : Order) :
      valid_ticker t -> orderBooks w !! Z.to_nat t = Some b ->
      lowest_active (sell_orders b) (Z.to_nat (sell_count b)) ks so ->
      (j < Z.to_nat (buy_count b))%nat -> buy_orders b !! j = Some (Some bo) ->
      eligible (price so) bo = true ->
      (forall (k : nat) (o : Order),
         (k < j)%nat -> buy_orders b !! k = Some (Some o) ->
         eligible (price so) o = false) ->
      effect w (MatchOrder t)
        (with_book (Z.to_nat t) (settled t (price so) j ks bo (b, stdout w)) w).

(** An order later in its life: the same order, or the same order with
    its flag cleared. *)
Definition order_later (o o' : Order) : Prop :=
  o' = o \/ (active o = true /\ o' = deactivate o).

(** A book later in its life: counters have not gone down and every
    order is still in its slot, at most with its flag cleared. *)
Definition book_later (b b' : OrderBook) : Prop :=
  forall sd : side,
    count_of sd b <= count_of sd b' /\
    forall (i : nat) (o : Order),
      orders_of sd b !! i = Some (Some o) ->
      exists o' : Order, orders_of sd b' !! i = Some (Some o') /\ order_later o o'.

Definition world_later (w w' : world) : Prop :=
  forall (t : nat) (b : OrderBook),
    orderBooks w !! t = Some b ->
    exists b' : OrderBook, orderBooks w' !! t = Some b' /\ book_later b b'.

(** ** Counting insertions *)

(** Is [c] an [addOrder] call aimed at side [sd] of ticker [t]? *)
Definition adds_to (t : Z) (sd : side) (c : call) : bool :=
  match c with
  | AddOrder ot t' _ _ => bool_decide (t' = t /\ side_of ot = sd)
  | MatchOrder _ => false
  end.

(** The number of such calls in a list. *)
Fixpoint insertions (t : Z) (sd : side) (cs : list call) : Z :=
  match cs with
  | [] => 0
  | c :: rest => (if adds_to t sd c then 1 else 0) + insertions t sd rest
  end.

(** ** Concrete registries, programs and schedules *)

(** The registry after two sell orders and one buy order on ticker 5. *)
Definition demo_world : world :=
  snd (exec (AddOrder 0 5 10 (Fin 60))
    (snd (exec (AddOrder 1 5 10 (Fin 40))
      (snd (exec (AddOrder 1 5 10 (Fin 50)) init_world))))).

(** The registry after one sell order and one buy order on ticker 5, both
    priced [float('inf')]. *)
Definition inf_world : world :=
  snd (exec (AddOrder 0 5 10 PosInf)
    (snd (exec (AddOrder 1 5 10 PosInf) init_world))).

(** The registry after the match of the scenario: on ticker 5 the sell
    order at 40 and the buy order at 60 have their flags cleared. *)
Definition matched_world : world := snd (exec (MatchOrder 5) demo_world).

(** The four calls of the scenario, in sequence. *)
Definition scenario : M world retval :=
  run addOrder 1 5 10 (Fin 50) ;;
  run addOrder 1 5 10 (Fin 40) ;;
  run addOrder 0 5 10 (Fin 60) ;;
  matchOrder 5.

(** Two calls on the buy side of ticker 5, as threads. *)
Definition two_buyers : list thread :=
  [Entering 0 5 10 (Fin 60); Entering 0 5 20 (Fin 61)].

(** Thread 0 reads the counter, thread 1 reads the counter, thread 0
    stores and increments, thread 1 stores and increments. *)
Definition racy_schedule : list nat := [0; 1; 0; 0; 1; 1]%nat.

(** Thread 0 runs to its end, then thread 1. *)
Definition serial_schedule : list nat := [0; 0; 0; 1; 1; 1]%nat.

(** ** Accounting of flags and printed lines *)

(** The ticker a call is aimed at. *)
Definition call_ticker (c : call) : Z :=
  match c with
  | AddOrder _ t _ _ => t
  | MatchOrder t => t
  end.

(** Does the slot hold an order whose flag has been cleared? *)
Definition cleared (x : slot) : bool :=
  match x with
  | Some o => negb (active o)
  | None => false
  end.

(** The number of such slots in a list. *)
Fixpoint cleared_count (l : list slot) : nat :=
  match l with
  | [] => 0
  | x :: rest => (if cleared x then 1 else 0) + cleared_count rest
  end%nat.

(** The number of printed lines that name ticker [t]. *)
Fixpoint lines_for (t : Z) (out : list MatchLine) : nat :=
  match out with
  | [] => 0
  | l :: rest => (if decide (m_ticker l = t) then 1 else 0) + lines_for t rest
  end%nat.

(** What every printed line satisfies: a ticker in range, a sell price
    below [+inf], and a buy price [>=] the sell price. *)
Definition sound_line (l : MatchLine) : Prop :=
  valid_ticker (m_ticker l) /\ flt (m_sell l) PosInf = true /\
  fge (m_buy l) (m_sell l) = true.

(** ** Insertions in arrival order *)

(** The orders that the [addOrder] calls of a list aim at side [sd] of
    ticker [t], in the order of the calls. *)
Fixpoint inserted (t : Z) (sd : side) (cs : list call) : list Order :=
  match cs with
  | [] => []
  | AddOrder ot t' q p :: rest =>
      if adds_to t sd (AddOrder ot t' q p)
      then new_Order ot t' q p :: inserted t sd rest
      else inserted t sd rest
  | MatchOrder _ :: rest => inserted t sd rest
  end.

(** ** A registry with a counter past the end of its list *)

(** 1023 sell orders on ticker 5, then two more [addOrder] calls as
    threads under [racy_schedule]: both read the counter at 1023, both
    store into slot 1023 and both increment. *)
Definition overrun_world : world :=
  snd (run_schedule racy_schedule
         [Entering 1 5 1 (Fin 1); Entering 1 5 2 (Fin 2)]
         (snd (exec_all (repeat (AddOrder 1 5 1 (Fin 1)) 1023) init_world))).

(** ** Threads that take turns *)

(** The thread, and the call, for one quadruple of [addOrder] arguments. *)
Definition thread_of (a : Z * Z * Z * pyfloat) : thread :=
  let '(ot, t, q, p) := a in Entering ot t q p.

Definition call_of (a : Z * Z * Z * pyfloat) : call :=
  let '(ot, t, q, p) := a in AddOrder ot t q p.

(** The schedule in which threads [first], [first+1], ... each run their
    three steps before the next one starts, as they would under a lock
    held for the whole call. *)
Definition in_turn (first n : nat) : list nat :=
  flat_map (fun i => [i; i; i]) (seq first n).

(** ** What the load generators draw *)

(** The float written [0.1]: the binary64 value nearest to one tenth. *)
Definition tenth : Q := 3602879701896397 # 36028797018963968.

(** The ranges [random.randint(a, b)] and [random.uniform(a, b)] are
    documented to return values in: [a <= N <= b]. *)
Definition documented_draw (d : draw) : Prop :=
  0 <= d_type d <= 1 /\
  0 <= d_ticker d <= MAX_TICKERS - 1 /\
  1 <= d_quantity d <= 100 /\
  fle (Fin tenth) (d_price d) = true /\ fle (d_price d) (Fin 100) = true.

(** An order as [simulateAddOrders] makes them. *)
Definition generated (o : Order) : Prop :=
  0 <= order_type o <= 1 /\ 1 <= quantity o <= 100 /\
  fle (Fin tenth) (price o) = true /\ fle (price o) (Fin 100) = true.

(** The orders of a registry are all as the generator makes them. *)
Definition all_generated_in (w : world) : Prop :=
  forall (k : nat) (b : OrderBook) (sd : side) (i : nat) (o : Order),
    orderBooks w !! k = Some b -> orders_of sd b !! i = Some (Some o) ->
    generated o.

(** The calls the two loops make. *)
Definition add_call (rnd : Z -> draw) (i : Z) : call :=
  AddOrder (d_type (rnd i)) (d_ticker (rnd i)) (d_quantity (rnd i))
    (d_price (rnd i)).

Definition match_call (rnd : Z -> Z) (i : Z) : call := MatchOrder (rnd i).

(** The registries the generators can produce when run one after the
    other, with draws in the documented ranges. *)
Inductive generator_reachable : world -> Prop :=
  | gen_init : generator_reachable init_world
  | gen_add (numOrders : Z) (rnd : Z -> draw) (w : world) :
      generator_reachable w -> (forall i : Z, documented_draw (rnd i)) ->
      generator_reachable (snd (simulateAddOrders numOrders rnd w))
  | gen_match (numMatches : Z) (rnd : Z -> Z) (w : world) :
      generator_reachable w ->
      generator_reachable (snd (simulateMatchOrders numMatches rnd w)).

(** A draw inside the documented ranges, the same in every iteration. *)
Definition steady_draw (i : Z) : draw :=
  {| d_type := 1; d_ticker := 5; d_quantity := 10; d_price := Fin 40 |}.

(** ** How far a thread has come *)

(** [stage ot t q p b0 th b]: a thread that entered [addOrder ot t q p]
    when its book was [b0], and ran undisturbed on that book since, is at
    [th] with the book at [b]. *)
Inductive stage (ot t q : Z) (p : pyfloat) (b0 : OrderBook) :
    thread -> OrderBook -> Prop :=
  | stage_entering : stage ot t q p b0 (Entering ot t q p) b0
  | stage_index :
      count_of (side_of ot) b0 < MAX_ORDERS_PER_SIDE ->
      stage ot t q p b0
        (HoldsIndex (side_of ot) ot t q p (count_of (side_of ot) b0)) b0
  | stage_stored :
      count_of (side_of ot) b0 < MAX_ORDERS_PER_SIDE ->
      stage ot t q p b0 (HasStored (side_of ot) t)
        (set_orders (side_of ot)
           (<[Z.to_nat (count_of (side_of ot) b0) := Some (new_Order ot t q p)]>
              (orders_of (side_of ot) b0)) b0)
  | stage_inserted :
      count_of (side_of ot) b0 < MAX_ORDERS_PER_SIDE ->
      stage ot t q p b0 Finished (appended (side_of ot) (new_Order ot t q p) b0)
  | stage_full :
      ~ count_of (side_of ot) b0 < MAX_ORDERS_PER_SIDE ->
      stage ot t q p b0 Finished b0.

(** The registry with the books of two tickers replaced. *)
Definition with_two_books (k1 : nat) (B1 : OrderBook) (k2 : nat) (B2 : OrderBook)
    (w : world) : world :=
  {| orderBooks := <[k2 := B2]> (<[k1 := B1]> (orderBooks w)); stdout := stdout w |}.

(** * Properties *)

(** ** Comparison of prices *)

Lemma flt_irrefl (a : pyfloat) : flt a a = false.
Proof.
  destruct a as [ | | q | ]; simpl; try reflexivity.
  destruct (Qcompare_spec q q) as [_|H|H]; try reflexivity;
    exfalso; apply (Qlt_irrefl q); exact H.
Qed.

Lemma flt_trans (a b c : pyfloat) :
  flt a b = true -> flt b c = true -> flt a c = true.
Proof.
  destruct a as [ | | x | ], b as [ | | y | ], c as [ | | z | ];
    simpl; try congruence.
  destruct (Qcompare_spec x y) as [|Hxy|]; try discriminate.
  destruct (Qcompare_spec y z) as [|Hyz|]; try discriminate.
  intros _ _. rewrite (proj1 (Qlt_alt x z)); [reflexivity|].
  eapply Qlt_trans; eassumption.
Qed.

Lemma fle_flt_trans (a b c : pyfloat) :
  fle a b = true -> flt b c = true -> flt a c = true.
Proof.
  destruct a as [ | | x | ], b as [ | | y | ], c as [ | | z | ];
    simpl; try congruence.
  intros Hxy Hyz.
  destruct (Qcompare_spec y z) as [|Hlt|]; try discriminate.
  rewrite (proj1 (Qlt_alt x z)); [reflexivity|].
  eapply Qle_lt_trans; [|exact Hlt].
  apply Qle_alt. intros Hgt. rewrite Hgt in Hxy. discriminate.
Qed.

Lemma flt_not_fle (a b : pyfloat) : flt a b = true -> fle b a = false.
Proof.
  destruct a as [ | | x | ], b as [ | | y | ]; simpl; try congruence.
  destruct (Qcompare_spec x y) as [|Hlt|]; try discriminate.
  intros _. rewrite (proj1 (Qgt_alt y x)); [reflexivity|exact Hlt].
Qed.

Lemma flt_asym (a b : pyfloat) : flt a b = true -> flt b a = false.
Proof.
  intros H. destruct (flt b a) eqn:E; [|reflexivity].
  pose proof (flt_trans _ _ _ H E) as Haa. rewrite flt_irrefl in Haa.
  discriminate.
Qed.

(** Away from NaN the two comparisons are each other's negation: the
    order is total there. *)
Lemma fle_false_flt (a b : pyfloat) :
  a <> NaN -> b <> NaN -> fle a b = false -> flt b a = true.
Proof.
  destruct a as [ | | x | ], b as [ | | y | ]; simpl; try congruence.
  intros _ _. destruct (Qcompare_spec x y) as [|Hlt|Hgt]; try discriminate.
  intros _. rewrite (proj1 (Qlt_alt y x)); [reflexivity|exact Hgt].
Qed.

(** ** List accesses in range *)

Lemma py_index_nat {A : Type} (l : list A) (k : nat) :
  (k < length l)%nat -> py_index l (Z.of_nat k) = Some k.
Proof.
  intros H. unfold py_index. simpl.
  destruct (decide _) as [_|Hn]; [|lia].
  f_equal. apply Nat2Z.id.
Qed.

Lemma py_index_nonneg {A : Type} (l : list A) (i : Z) :
  0 <= i < Z.of_nat (length l) -> py_index l i = Some (Z.to_nat i).
Proof.
  intros H. unfold py_index. simpl. destruct (decide _); [reflexivity|lia].
Qed.

Lemma py_index_past_end {A : Type} (l : list A) (i : Z) :
  Z.of_nat (length l) <= i -> py_index l i = None.
Proof.
  intros H. unfold py_index. simpl.
  repeat (destruct (decide _); try lia). reflexivity.
Qed.

Lemma load_slot_nat (sd : side) (k : nat) (x : slot) (s : bstate) :
  orders_of sd (fst s) !! k = Some x ->
  load_slot sd (Z.of_nat k) s = (Val x, s).
Proof.
  intros H. unfold load_slot, bind, get, py_getitem. simpl.
  rewrite py_index_nat by (eapply lookup_lt_Some; exact H).
  rewrite H. reflexivity.
Qed.

Lemma clear_active_nat (sd : side) (k : nat) (s : bstate) :
  (k < length (orders_of sd (fst s)))%nat ->
  clear_active sd (Z.of_nat k) s =
  (Val tt, (set_orders sd (alter (fmap deactivate) k (orders_of sd (fst s))) (fst s),
            snd s)).
Proof.
  intros H. unfold clear_active. rewrite py_index_nat by exact H. reflexivity.
Qed.

Lemma orders_of_set_orders_eq (sd : side) (l : list slot) (b : OrderBook) :
  orders_of sd (set_orders sd l b) = l.
Proof. destruct sd; reflexivity. Qed.

Lemma orders_of_set_orders_ne (sd sd' : side) (l : list slot) (b : OrderBook) :
  sd <> sd' -> orders_of sd' (set_orders sd l b) = orders_of sd' b.
Proof. destruct sd, sd'; simpl; congruence. Qed.

Lemma count_of_set_orders (sd sd' : side) (l : list slot) (b : OrderBook) :
  count_of sd' (set_orders sd l b) = count_of sd' b.
Proof. destruct sd, sd'; reflexivity. Qed.

Lemma orders_of_set_count (sd sd' : side) (c : Z) (b : OrderBook) :
  orders_of sd' (set_count sd c b) = orders_of sd' b.
Proof. destruct sd, sd'; reflexivity. Qed.

Lemma count_of_set_count_eq (sd : side) (c : Z) (b : OrderBook) :
  count_of sd (set_count sd c b) = c.
Proof. destruct sd; reflexivity. Qed.

Lemma count_of_set_count_ne (sd sd' : side) (c : Z) (b : OrderBook) :
  sd <> sd' -> count_of sd' (set_count sd c b) = count_of sd' b.
Proof. destruct sd, sd'; simpl; congruence. Qed.

(** ** The sell scan *)

(** The loop over the slots [a .. a+n-1], started with running minimum
    [lp] at index [li]: it changes nothing, never raises inside the list,
    and either keeps its two variables (no active order of the range is
    below [lp]) or ends on the first cheapest active order of the range. *)
Lemma sell_scan_range (n a : nat) (lp : pyfloat) (li : Z) (s : bstate) :
  (a + n <= length (sell_orders (fst s)))%nat ->
  exists (lp' : pyfloat) (li' : Z),
    sell_scan (map Z.of_nat (seq a n)) lp li s = (Val (lp', li'), s) /\
    ((lp' = lp /\ li' = li /\
      forall (k : nat) (o : Order),
        (a <= k < a + n)%nat -> sell_orders (fst s) !! k = Some (Some o) ->
        active o = true -> flt (price o) lp = false)
     \/
     (exists (k : nat) (o : Order),
        (a <= k < a + n)%nat /\ li' = Z.of_nat k /\ lp' = price o /\
        sell_orders (fst s) !! k = Some (Some o) /\ active o = true /\
        flt lp' lp = true /\
        forall (k' : nat) (o' : Order),
          (a <= k' < a + n)%nat -> sell_orders (fst s) !! k' = Some (Some o') ->
          active o' = true ->
          flt (price o') lp' = false /\
          ((k' < k)%nat -> fle (price o') lp' = false))).
Proof.
  revert a lp li. induction n as [|n IH]; intros a lp li Hlen.
  - exists lp, li. split; [reflexivity|]. left. repeat split. intros; lia.
  - destruct (lookup_lt_is_Some_2 (sell_orders (fst s)) a ltac:(lia)) as [x Hx].
    simpl. unfold bind at 1.
    rewrite (load_slot_nat Sell a x s Hx).
    assert (Hskip :
      (forall o, x = Some o -> active o = true -> flt (price o) lp = false) ->
      exists lp' li',
        sell_scan (map Z.of_nat (seq (S a) n)) lp li s = (Val (lp', li'), s) /\
        ((lp' = lp /\ li' = li /\
          forall k o, (a <= k < a + S n)%nat ->
            sell_orders (fst s) !! k = Some (Some o) ->
            active o = true -> flt (price o) lp = false)
         \/
         (exists k o,
            (a <= k < a + S n)%nat /\ li' = Z.of_nat k /\ lp' = price o /\
            sell_orders (fst s) !! k = Some (Some o) /\ active o = true /\
            flt lp' lp = true /\
            forall k' o', (a <= k' < a + S n)%nat ->
              sell_orders (fst s) !! k' = Some (Some o') -> active o' = true ->
              flt (price o') lp' = false /\
              ((k' < k)%nat -> fle (price o') lp' = false)))).
    { intros Hhead.
      destruct (IH (S a) lp li ltac:(lia)) as (lp' & li' & Hrun & [Hsame|Hnew]).
      - exists lp', li'. split; [exact Hrun|]. left.
        destruct Hsame as (-> & -> & Hall). repeat split.
        intros k o Hk Hko Hact.
        destruct (decide (k = a)) as [->|Hne].
        + apply Hhead; [congruence|exact Hact].
        + apply (Hall k o); [lia|exact Hko|exact Hact].
      - exists lp', li'. split; [exact Hrun|]. right.
        destruct Hnew as (k & o & Hk & -> & -> & Hko & Hact & Hlt & Hall).
        exists k, o. repeat split; try assumption; try lia.
        + destruct (decide (k' = a)) as [->|Hne].
          * assert (Hx' : x = Some o') by congruence.
            destruct (flt (price o') (price o)) eqn:E; [|reflexivity].
            rewrite <- (Hhead o' Hx' H1). symmetry.
            eapply flt_trans; eassumption.
          * apply (Hall k' o'); [lia|assumption|assumption].
        + intros Hk'. destruct (decide (k' = a)) as [->|Hne].
          * assert (Hx' : x = Some o') by congruence.
            destruct (fle (price o') (price o)) eqn:E; [|reflexivity].
            rewrite <- (Hhead o' Hx' H1). symmetry.
            eapply fle_flt_trans; eassumption.
          * apply (Hall k' o'); [lia|assumption|assumption|exact Hk']. }
    destruct x as [o|]; [|apply Hskip; discriminate].
    destruct (active o) eqn:Hact;
      [|apply Hskip; intros o' [= <-] H'; congruence].
    destruct (flt (price o) lp) eqn:Hlt;
      [|apply Hskip; intros o' [= <-] _; exact Hlt].
    destruct (IH (S a) (price o) (Z.of_nat a) ltac:(lia))
      as (lp' & li' & Hrun & [Hsame|Hnew]).
    + exists lp', li'. split; [exact Hrun|]. right.
      destruct Hsame as (-> & -> & Hall).
      exists a, o. repeat split; try assumption; try lia.
      * destruct (decide (k' = a)) as [->|Hne].
        -- replace o' with o by congruence. apply flt_irrefl.
        -- apply (Hall k' o'); [lia|assumption|assumption].
    + exists lp', li'. split; [exact Hrun|]. right.
      destruct Hnew as (k & o1 & Hk & -> & -> & Hko & Hact1 & Hlt1 & Hall).
      exists k, o1. repeat split; try assumption; try lia.
      * eapply flt_trans; eassumption.
      * destruct (decide (k' = a)) as [->|Hne].
        -- replace o' with o by congruence. apply flt_asym. exact Hlt1.
        -- apply (Hall k' o'); [lia|assumption|assumption].
      * intros Hk'. destruct (decide (k' = a)) as [->|Hne].
        -- replace o' with o by congruence. apply flt_not_fle. exact Hlt1.
        -- apply (Hall k' o'); [lia|assumption|assumption|exact Hk'].
Qed.

Lemma wf_side_count_le_length (sd : side) (b : OrderBook) :
  wf_side sd b -> (Z.to_nat (count_of sd b) <= length (orders_of sd b))%nat.
Proof. intros (Hlen & Hc & _). rewrite Hlen. lia. Qed.

(** The outcome of the first loop on a well-formed book: nothing found
    (no active sell order is below [+inf]) or the first cheapest active
    sell order; the book is only read. *)
Lemma find_lowest_sell_spec (b : OrderBook) (out : list MatchLine) :
  wf_side Sell b ->
  (find_lowest_sell (b, out) = (Val (PosInf, -1), (b, out)) /\
   forall (k : nat) (o : Order),
     (k < Z.to_nat (sell_count b))%nat -> sell_orders b !! k = Some (Some o) ->
     active o = true -> flt (price o) PosInf = false)
  \/
  (exists (k : nat) (o : Order),
     find_lowest_sell (b, out) = (Val (price o, Z.of_nat k), (b, out)) /\
     lowest_active (sell_orders b) (Z.to_nat (sell_count b)) k o).
Proof.
  intros Hwf. pose proof (wf_side_count_le_length _ _ Hwf) as Hlen.
  unfold find_lowest_sell, bind, load_count. simpl in *.
  destruct (sell_scan_range (Z.to_nat (sell_count b)) 0 PosInf (-1) (b, out)
              ltac:(simpl; lia)) as (lp' & li' & Hrun & [Hsame|Hnew]).
  - left. destruct Hsame as (-> & -> & Hall). split; [exact Hrun|].
    intros k o Hk. apply Hall. lia.
  - right. destruct Hnew as (k & o & Hk & -> & -> & Hko & Hact & Hlt & Hall).
    exists k, o. split; [exact Hrun|].
    split; [lia|]. split; [exact Hko|]. split; [exact Hact|].
    split; [exact Hlt|].
    intros k' o' Hk' Hko' Hact'. apply (Hall k' o'); [lia|assumption|assumption].
Qed.

(** ** The buy scan *)

(** The loop over the buy slots [a .. a+n-1] when the sell order chosen
    by the first loop is still active: it settles the first eligible buy
    order and stops, or finds none and changes nothing. *)
Lemma buy_scan_range (t : Z) (lsp : pyfloat) (ks : nat) (so : Order)
    (n a : nat) (s : bstate) :
  (a + n <= length (buy_orders (fst s)))%nat ->
  sell_orders (fst s) !! ks = Some (Some so) -> active so = true ->
  (buy_scan t lsp (Z.of_nat ks) (map Z.of_nat (seq a n)) s = (Val None, s) /\
   forall (k : nat) (o : Order),
     (a <= k < a + n)%nat -> buy_orders (fst s) !! k = Some (Some o) ->
     eligible lsp o = false)
  \/
  (exists (j : nat) (bo : Order),
     (a <= j < a + n)%nat /\ buy_orders (fst s) !! j = Some (Some bo) /\
     eligible lsp bo = true /\
     (forall (k : nat) (o : Order),
        (a <= k < j)%nat -> buy_orders (fst s) !! k = Some (Some o) ->
        eligible lsp o = false) /\
     buy_scan t lsp (Z.of_nat ks) (map Z.of_nat (seq a n)) s =
       (Val (Some (Z.of_nat j)), settled t lsp j ks bo s)).
Proof.
  intros Hlen Hso Hact. revert a Hlen.
  induction n as [|n IH]; intros a Hlen.
  - left. split; [reflexivity|]. intros; lia.
  - destruct (lookup_lt_is_Some_2 (buy_orders (fst s)) a ltac:(lia)) as [x Hx].
    assert (Hskip :
      (forall o, x = Some o -> eligible lsp o = false) ->
      buy_scan t lsp (Z.of_nat ks) (map Z.of_nat (seq (S a) n)) s =
      buy_scan t lsp (Z.of_nat ks) (map Z.of_nat (seq a (S n))) s ->
      (buy_scan t lsp (Z.of_nat ks) (map Z.of_nat (seq a (S n))) s = (Val None, s) /\
       forall k o, (a <= k < a + S n)%nat ->
         buy_orders (fst s) !! k = Some (Some o) -> eligible lsp o = false)
      \/
      (exists j bo,
         (a <= j < a + S n)%nat /\ buy_orders (fst s) !! j = Some (Some bo) /\
         eligible lsp bo = true /\
         (forall k o, (a <= k < j)%nat ->
            buy_orders (fst s) !! k = Some (Some o) -> eligible lsp o = false) /\
         buy_scan t lsp (Z.of_nat ks) (map Z.of_nat (seq a (S n))) s =
           (Val (Some (Z.of_nat j)), settled t lsp j ks bo s))).
    { intros Hhead Heq. rewrite <- Heq.
      destruct (IH (S a) ltac:(lia)) as [[Hrun Hall]|(j & bo & Hj & Hjo & He & Hall & Hrun)].
      - left. split; [exact Hrun|]. intros k o Hk Hko.
        destruct (decide (k = a)) as [->|Hne].
        + apply Hhead. congruence.
        + apply (Hall k o); [lia|exact Hko].
      - right. exists j, bo. repeat split; try assumption; try lia.
        intros k o Hk Hko. destruct (decide (k = a)) as [->|Hne].
        + apply Hhead. congruence.
        + apply (Hall k o); [lia|exact Hko]. }
    assert (Hstep : forall rest,
      buy_scan t lsp (Z.of_nat ks) (Z.of_nat a :: rest) s =
      match x with
      | Some o =>
          if active o then
            if fge (price o) lsp then
              if active o then
                (run clear_active Buy (Z.of_nat a) ;;
                 do sell_order <- load_slot Sell (Z.of_nat ks) ;;
                 match sell_order with
                 | Some so =>
                     if active so then
                       run clear_active Sell (Z.of_nat ks) ;;
                       run print {| m_ticker := t; m_buy := price o;
                                    m_sell := lsp; m_quantity := quantity o |} ;;
                       ret (Some (Z.of_nat a))
                     else buy_scan t lsp (Z.of_nat ks) rest
                 | None => buy_scan t lsp (Z.of_nat ks) rest
                 end) s
              else buy_scan t lsp (Z.of_nat ks) rest s
            else buy_scan t lsp (Z.of_nat ks) rest s
          else buy_scan t lsp (Z.of_nat ks) rest s
      | None => buy_scan t lsp (Z.of_nat ks) rest s
      end).
    { intros rest. simpl. unfold bind at 1.
      rewrite (load_slot_nat Buy a x s Hx).
      destruct x as [o|]; [|reflexivity].
      destruct (active o); [|reflexivity].
      destruct (fge (price o) lsp); reflexivity. }
    change (seq a (S n)) with (a :: seq (S a) n) in *.
    change (map Z.of_nat (a :: seq (S a) n))
      with (Z.of_nat a :: map Z.of_nat (seq (S a) n)) in *.
    destruct x as [o|];
      [|apply Hskip; [discriminate|rewrite Hstep; reflexivity]].
    destruct (active o) eqn:Ho;
      [|apply Hskip;
        [intros o' [= <-]; unfold eligible; rewrite Ho; reflexivity
        |rewrite Hstep; reflexivity]].
    destruct (fge (price o) lsp) eqn:Hge;
      [|apply Hskip;
        [intros o' [= <-]; unfold eligible; rewrite Ho, Hge; reflexivity
        |rewrite Hstep; reflexivity]].
    right. exists a, o. repeat split; try assumption; try lia.
    + unfold eligible. rewrite Ho, Hge. reflexivity.
    + rewrite Hstep. unfold bind at 1.
      rewrite clear_active_nat by (simpl; lia).
      unfold bind at 1. erewrite load_slot_nat by (simpl; exact Hso).
      cbv beta iota. rewrite Hact. unfold bind at 1.
      rewrite clear_active_nat
        by (simpl; eapply lookup_lt_Some; exact Hso).
      reflexivity.
Qed.

(** ** One call on one book *)

(** What [match_book] does on a well-formed book: either it leaves
    everything as it is (no sell order could be chosen, or no buy order is
    eligible against the chosen one), or it settles the first eligible buy
    order against the first cheapest active sell order. *)
Lemma match_book_spec (t : Z) (b : OrderBook) (out : list MatchLine) :
  wf_book b ->
  (match_book t (b, out) = (Val None, (b, out)) /\
   ((forall (k : nat) (o : Order),
       (k < Z.to_nat (sell_count b))%nat -> sell_orders b !! k = Some (Some o) ->
       active o = true -> flt (price o) PosInf = false)
    \/
    (exists (ks : nat) (so : Order),
       lowest_active (sell_orders b) (Z.to_nat (sell_count b)) ks so /\
       forall (k : nat) (o : Order),
         (k < Z.to_nat (buy_count b))%nat -> buy_orders b !! k = Some (Some o) ->
         eligible (price so) o = false)))
  \/
  (exists (ks : nat) (so : Order) (j : nat) (bo : Order),
     lowest_active (sell_orders b) (Z.to_nat (sell_count b)) ks so /\
     (j < Z.to_nat (buy_count b))%nat /\ buy_orders b !! j = Some (Some bo) /\
     eligible (price so) bo = true /\
     (forall (k : nat) (o : Order),
        (k < j)%nat -> buy_orders b !! k = Some (Some o) ->
        eligible (price so) o = false) /\
     match_book t (b, out) =
       (Val (Some (Z.of_nat j, Z.of_nat ks)),
        settled t (price so) j ks bo (b, out))).
Proof.
  intros Hwf.
  destruct (find_lowest_sell_spec b out (Hwf Sell))
    as [[Hrun Hnone]|(ks & so & Hrun & Hlow)].
  - left. split; [|left; exact Hnone].
    unfold match_book, bind. rewrite Hrun. reflexivity.
  - pose proof (wf_side_count_le_length _ _ (Hwf Buy)) as Hlen.
    pose proof Hlow as (Hks & Hso & Hact & Hinf & Hmin).
    assert (Hstep : match_book t (b, out) =
              let '(r, s') := buy_scan t (price so) (Z.of_nat ks)
                                (map Z.of_nat (seq 0 (Z.to_nat (buy_count b))))
                                (b, out) in
              match r with
              | Val j => (Val (option_map (fun j => (j, Z.of_nat ks)) j), s')
              | Exc e => (Exc e, s')
              end).
    { unfold match_book, bind. rewrite Hrun. cbn [fst snd].
      destruct (decide (Z.of_nat ks = -1)) as [Hneg|_]; [lia|].
      reflexivity. }
    rewrite Hstep.
    destruct (buy_scan_range t (price so) ks so (Z.to_nat (buy_count b)) 0
                (b, out) ltac:(simpl in *; lia) Hso Hact)
      as [[Hscan Hall]|(j & bo & Hj & Hjo & He & Hall & Hscan)];
      rewrite Hscan.
    + left. split; [reflexivity|].
      right. exists ks, so. split; [exact Hlow|].
      intros k o Hk. apply Hall. lia.
    + right. exists ks, so, j, bo.
      split; [exact Hlow|]. repeat split; try assumption; try lia.
      intros k o Hk. apply Hall. lia.
Qed.

(** One branch of [addOrder] on a well-formed side: below capacity the
    order goes to slot [count] and the counter advances; at capacity
    nothing happens. *)
Lemma add_side_spec (sd : side) (ot t q : Z) (p : pyfloat) (s : bstate) :
  wf_side sd (fst s) ->
  add_side sd ot t q p s =
    if decide (count_of sd (fst s) < MAX_ORDERS_PER_SIDE) then
      (Val tt,
       (set_count sd (count_of sd (fst s) + 1)
          (set_orders sd
             (<[Z.to_nat (count_of sd (fst s)) := Some (new_Order ot t q p)]>
                (orders_of sd (fst s)))
             (fst s)),
        snd s))
    else (Val tt, s).
Proof.
  intros (Hlen & Hc & _). unfold add_side, bind at 1, load_count.
  destruct (decide _) as [Hlt|]; [|reflexivity].
  unfold bind, store_slot, bind, get, or_IndexError, py_setitem. simpl fst.
  rewrite py_index_nonneg by lia. simpl.
  unfold incr_count. simpl. rewrite count_of_set_orders. reflexivity.
Qed.

Lemma wf_book_new : wf_book new_OrderBook.
Proof.
  intros sd. unfold wf_side.
  assert (Hc : count_of sd new_OrderBook = 0) by (destruct sd; reflexivity).
  assert (Ho : orders_of sd new_OrderBook =
               replicate (Z.to_nat MAX_ORDERS_PER_SIDE) None)
    by (destruct sd; reflexivity).
  rewrite Hc, Ho. split; [|split; [|split]].
  - apply length_replicate.
  - unfold MAX_ORDERS_PER_SIDE. lia.
  - intros i Hi. lia.
  - intros i Hi. apply lookup_replicate_2. lia.
Qed.

Lemma wf_world_init : wf_world init_world.
Proof.
  split.
  - apply length_replicate.
  - intros t b Hb. apply lookup_replicate in Hb as [-> _]. apply wf_book_new.
Qed.

(** Clearing a flag keeps a side well formed. *)
Lemma wf_side_alter (sd sd' : side) (k : nat) (b : OrderBook) :
  wf_side sd' b ->
  wf_side sd' (set_orders sd (alter (fmap deactivate) k (orders_of sd b)) b).
Proof.
  intros (Hlen & Hc & Hlo & Hhi).
  destruct (decide (sd = sd')) as [<-|Hne].
  - unfold wf_side. rewrite orders_of_set_orders_eq, count_of_set_orders.
    rewrite length_alter. split; [|split; [|split]]; try assumption.
    + intros i Hi. destruct (Hlo i Hi) as [o Ho].
      destruct (decide (k = i)) as [->|Hki].
      * exists (deactivate o). rewrite list_lookup_alter_eq, Ho. reflexivity.
      * exists o. rewrite list_lookup_alter_ne by exact Hki. exact Ho.
    + intros i Hi. destruct (decide (k = i)) as [->|Hki].
      * rewrite list_lookup_alter_eq, (Hhi i Hi). reflexivity.
      * rewrite list_lookup_alter_ne by exact Hki. apply Hhi. exact Hi.
  - unfold wf_side.
    rewrite orders_of_set_orders_ne by exact Hne.
    rewrite count_of_set_orders. split; [|split; [|split]]; assumption.
Qed.

Lemma wf_book_settled (t : Z) (lsp : pyfloat) (j ks : nat) (bo : Order)
    (s : bstate) :
  wf_book (fst s) -> wf_book (fst (settled t lsp j ks bo s)).
Proof.
  intros Hwf sd.
  exact (wf_side_alter Sell sd ks _ (wf_side_alter Buy sd j (fst s) (Hwf sd))).
Qed.

(** Appending an order keeps a book well formed. *)
Lemma wf_book_added (sd : side) (o : Order) (b : OrderBook) :
  wf_book b -> count_of sd b < MAX_ORDERS_PER_SIDE ->
  wf_book (set_count sd (count_of sd b + 1)
             (set_orders sd (<[Z.to_nat (count_of sd b) := Some o]> (orders_of sd b)) b)).
Proof.
  intros Hwf Hlt sd'. destruct (Hwf sd') as (Hlen & Hc & Hlo & Hhi).
  destruct (decide (sd = sd')) as [<-|Hne].
  - unfold wf_side.
    rewrite orders_of_set_count, orders_of_set_orders_eq, count_of_set_count_eq.
    rewrite length_insert. split; [|split; [|split]]; try assumption; try lia.
    + intros i Hi. destruct (decide (Z.to_nat (count_of sd b) = i)) as [<-|Hki].
      * exists o. apply list_lookup_insert_eq. lia.
      * rewrite list_lookup_insert_ne by exact Hki. apply Hlo. lia.
    + intros i Hi. rewrite list_lookup_insert_ne by lia. apply Hhi. lia.
  - unfold wf_side.
    rewrite orders_of_set_count, orders_of_set_orders_ne by exact Hne.
    rewrite count_of_set_count_ne, count_of_set_orders by exact Hne.
    split; [|split; [|split]]; assumption.
Qed.

(** ** One call on the registry *)

Lemma with_book_same (k : nat) (b : OrderBook) (w : world) :
  orderBooks w !! k = Some b -> with_book k (b, stdout w) w = w.
Proof.
  intros H. unfold with_book. simpl. rewrite list_insert_id by exact H.
  destruct w; reflexivity.
Qed.

Lemma on_book_valid {A : Type} (t : Z) (m : BM A) (w : world) (b : OrderBook) :
  0 <= t -> orderBooks w !! Z.to_nat t = Some b ->
  on_book t m w = (fst (m (b, stdout w)), with_book (Z.to_nat t) (snd (m (b, stdout w))) w).
Proof.
  intros Ht Hb. unfold on_book.
  rewrite py_index_nonneg
    by (apply lookup_lt_Some in Hb; lia).
  rewrite Hb. destruct (m (b, stdout w)) as [r [b' out']]. reflexivity.
Qed.

Lemma wf_world_lookup (w : world) (t : Z) :
  wf_world w -> valid_ticker t ->
  exists b : OrderBook, orderBooks w !! Z.to_nat t = Some b /\ wf_book b.
Proof.
  intros [Hlen Hall] Ht. unfold valid_ticker in Ht.
  destruct (lookup_lt_is_Some_2 (orderBooks w) (Z.to_nat t)) as [b Hb].
  { rewrite Hlen. lia. }
  exists b. split; [exact Hb|]. eapply Hall. exact Hb.
Qed.

Lemma wf_world_with_book (k : nat) (s : bstate) (w : world) :
  wf_world w -> wf_book (fst s) -> wf_world (with_book k s w).
Proof.
  intros [Hlen Hall] Hs. split.
  - simpl. rewrite length_insert. exact Hlen.
  - simpl. intros t b Hb.
    destruct (decide (k = t)) as [->|Hne].
    + destruct (decide (t < length (orderBooks w))%nat) as [Hlt|Hge].
      * rewrite list_lookup_insert_eq in Hb by exact Hlt.
        injection Hb as <-. exact Hs.
      * rewrite list_insert_ge in Hb by lia. eapply Hall. exact Hb.
    + rewrite list_lookup_insert_ne in Hb by exact Hne. eapply Hall. exact Hb.
Qed.

Lemma addOrder_invalid (ot t q : Z) (p : pyfloat) (w : world) :
  ~ valid_ticker t -> addOrder ot t q p w = (Val PyNone, w).
Proof.
  intros Ht. unfold addOrder, valid_ticker in *.
  destruct (decide _) as [_|Hn]; [reflexivity|lia].
Qed.

Lemma matchOrder_invalid (t : Z) (w : world) :
  ~ valid_ticker t -> matchOrder t w = (Val PyNone, w).
Proof.
  intros Ht. unfold matchOrder, valid_ticker in *.
  destruct (decide _) as [_|Hn]; [reflexivity|lia].
Qed.

(** [addOrder] on a valid ticker of a well-formed registry. *)
Lemma addOrder_valid (ot t q : Z) (p : pyfloat) (w : world) (b : OrderBook) :
  valid_ticker t -> orderBooks w !! Z.to_nat t = Some b -> wf_book b ->
  addOrder ot t q p w =
    (Val PyNone,
     if decide (count_of (side_of ot) b < MAX_ORDERS_PER_SIDE)
     then with_book (Z.to_nat t)
            (appended (side_of ot) (new_Order ot t q p) b, stdout w) w
     else w).
Proof.
  intros Ht Hb Hwf. unfold addOrder, valid_ticker in *.
  destruct (decide (t < 0 \/ t >= MAX_TICKERS)) as [Hbad|_]; [lia|].
  unfold bind.
  rewrite (on_book_valid t _ w b) by (lia || exact Hb).
  assert (Hside :
    (if decide (ot = 0) then add_side Buy ot t q p else add_side Sell ot t q p)
    = add_side (side_of ot) ot t q p).
  { unfold side_of. destruct (decide (ot = 0)); reflexivity. }
  rewrite Hside, (add_side_spec (side_of ot) ot t q p (b, stdout w))
    by apply Hwf.
  cbn [fst snd].
  destruct (decide (count_of (side_of ot) b < MAX_ORDERS_PER_SIDE))
    as [Hlt|Hfull]; cbn [fst snd].
  - reflexivity.
  - unfold ret. rewrite with_book_same by exact Hb. reflexivity.
Qed.

(** A call never raises on a well-formed registry, returns [None], and
    leaves the registry well formed. *)
Lemma exec_wf (c : call) (w : world) :
  wf_world w -> fst (exec c w) = Val PyNone /\ wf_world (snd (exec c w)).
Proof.
  intros Hwf. destruct c as [ot t q p|t]; simpl.
  - destruct (decide (valid_ticker t)) as [Ht|Ht].
    + destruct (wf_world_lookup w t Hwf Ht) as (b & Hb & Hwb).
      rewrite (addOrder_valid ot t q p w b Ht Hb Hwb). split; [reflexivity|].
      cbn [snd]. destruct (decide _) as [Hlt|_]; [|exact Hwf].
      apply wf_world_with_book; [exact Hwf|].
      apply wf_book_added; assumption.
    + rewrite addOrder_invalid by exact Ht. split; [reflexivity|exact Hwf].
  - destruct (decide (valid_ticker t)) as [Ht|Ht].
    + destruct (wf_world_lookup w t Hwf Ht) as (b & Hb & Hwb).
      unfold matchOrder, valid_ticker in *.
      destruct (decide (t < 0 \/ t >= MAX_TICKERS)) as [Hbad|_]; [lia|].
      unfold bind. rewrite (on_book_valid t _ w b) by (lia || exact Hb).
      destruct (match_book_spec t b (stdout w) Hwb)
        as [[Hrun _]|(ks & so & j & bo & _ & _ & _ & _ & _ & Hrun)];
        rewrite Hrun; cbn [fst snd]; (split; [reflexivity|]).
      * rewrite with_book_same by exact Hb. exact Hwf.
      * apply wf_world_with_book; [exact Hwf|].
        apply (wf_book_settled t (price so) j ks bo (b, stdout w)). exact Hwb.
    + rewrite matchOrder_invalid by exact Ht. split; [reflexivity|exact Hwf].
Qed.

Lemma reachable_wf (w : world) : reachable w -> wf_world w.
Proof.
  induction 1 as [|c w _ IH].
  - apply wf_world_init.
  - apply exec_wf. exact IH.
Qed.

Lemma matchOrder_valid (t : Z) (w : world) (b : OrderBook) :
  valid_ticker t -> orderBooks w !! Z.to_nat t = Some b ->
  matchOrder t w =
    (match fst (match_book t (b, stdout w)) with
     | Val _ => Val PyNone
     | Exc e => Exc e
     end,
     with_book (Z.to_nat t) (snd (match_book t (b, stdout w))) w).
Proof.
  intros Ht Hb. unfold matchOrder, valid_ticker in *.
  destruct (decide (t < 0 \/ t >= MAX_TICKERS)) as [Hbad|_]; [lia|].
  unfold bind. rewrite (on_book_valid t _ w b) by (lia || exact Hb).
  destruct (match_book t (b, stdout w)) as [[r|e] s']; reflexivity.
Qed.

Lemma exec_effect (c : call) (w : world) :
  wf_world w -> effect w c (snd (exec c w)).
Proof.
  intros Hwf. destruct c as [ot t q p|t]; simpl.
  - destruct (decide (valid_ticker t)) as [Ht|Ht].
    + destruct (wf_world_lookup w t Hwf Ht) as (b & Hb & Hwb).
      rewrite (addOrder_valid ot t q p w b Ht Hb Hwb). cbn [snd].
      destruct (decide _) as [Hlt|_]; [|constructor].
      apply effect_add; assumption.
    + rewrite addOrder_invalid by exact Ht. constructor.
  - destruct (decide (valid_ticker t)) as [Ht|Ht].
    + destruct (wf_world_lookup w t Hwf Ht) as (b & Hb & Hwb).
      rewrite (matchOrder_valid t w b Ht Hb). cbn [snd].
      destruct (match_book_spec t b (stdout w) Hwb)
        as [[Hrun _]|(ks & so & j & bo & Hlow & Hj & Hjo & He & Hall & Hrun)];
        rewrite Hrun; cbn [snd].
      * rewrite with_book_same by exact Hb. constructor.
      * eapply effect_settle; eassumption.
    + rewrite matchOrder_invalid by exact Ht. constructor.
Qed.

(** ** How orders and books evolve *)

Lemma order_later_refl (o : Order) : order_later o o.
Proof. left. reflexivity. Qed.

Lemma order_later_trans (o1 o2 o3 : Order) :
  order_later o1 o2 -> order_later o2 o3 -> order_later o1 o3.
Proof.
  intros [->|[Ha ->]] [->|[Hb ->]].
  - left. reflexivity.
  - right. split; [exact Hb|reflexivity].
  - right. split; [exact Ha|reflexivity].
  - simpl in Hb. discriminate.
Qed.

Lemma book_later_refl (b : OrderBook) : book_later b b.
Proof.
  intros sd. split; [lia|]. intros i o Ho. exists o.
  split; [exact Ho|apply order_later_refl].
Qed.

Lemma book_later_trans (b1 b2 b3 : OrderBook) :
  book_later b1 b2 -> book_later b2 b3 -> book_later b1 b3.
Proof.
  intros H12 H23 sd. destruct (H12 sd) as [Hc12 Ho12].
  destruct (H23 sd) as [Hc23 Ho23]. split; [lia|].
  intros i o Ho. destruct (Ho12 i o Ho) as (o2 & Ho2 & Hl2).
  destruct (Ho23 i o2 Ho2) as (o3 & Ho3 & Hl3).
  exists o3. split; [exact Ho3|]. eapply order_later_trans; eassumption.
Qed.

Lemma world_later_refl (w : world) : world_later w w.
Proof. intros t b Hb. exists b. split; [exact Hb|apply book_later_refl]. Qed.

Lemma world_later_trans (w1 w2 w3 : world) :
  world_later w1 w2 -> world_later w2 w3 -> world_later w1 w3.
Proof.
  intros H12 H23 t b Hb. destruct (H12 t b Hb) as (b2 & Hb2 & Hl2).
  destruct (H23 t b2 Hb2) as (b3 & Hb3 & Hl3).
  exists b3. split; [exact Hb3|]. eapply book_later_trans; eassumption.
Qed.

Lemma world_later_with_book (k : nat) (b : OrderBook) (s : bstate) (w : world) :
  orderBooks w !! k = Some b -> book_later b (fst s) ->
  world_later w (with_book k s w).
Proof.
  intros Hb Hl t b0 Hb0. simpl.
  destruct (decide (k = t)) as [->|Hne].
  - exists (fst s). split.
    + apply list_lookup_insert_eq. eapply lookup_lt_Some. exact Hb.
    + replace b0 with b by congruence. exact Hl.
  - exists b0. split.
    + rewrite list_lookup_insert_ne by exact Hne. exact Hb0.
    + apply book_later_refl.
Qed.

Lemma book_later_alter (sd : side) (k : nat) (b : OrderBook) :
  book_later b (set_orders sd (alter (fmap deactivate) k (orders_of sd b)) b).
Proof.
  intros sd'. rewrite count_of_set_orders. split; [lia|].
  intros i o Ho. destruct (decide (sd = sd')) as [<-|Hne].
  - rewrite orders_of_set_orders_eq.
    destruct (decide (k = i)) as [->|Hki].
    + rewrite list_lookup_alter_eq, Ho. simpl.
      destruct (active o) eqn:Ha.
      * exists (deactivate o). split; [reflexivity|]. right. split; [exact Ha|reflexivity].
      * exists (deactivate o). split; [reflexivity|]. left.
        destruct o; simpl in *; subst; reflexivity.
    + rewrite list_lookup_alter_ne by exact Hki. exists o.
      split; [exact Ho|apply order_later_refl].
  - rewrite orders_of_set_orders_ne by exact Hne. exists o.
    split; [exact Ho|apply order_later_refl].
Qed.

Lemma book_later_appended (sd : side) (o : Order) (b : OrderBook) :
  wf_book b -> book_later b (appended sd o b).
Proof.
  intros Hwf sd'. unfold appended. destruct (Hwf sd') as (Hlen & Hc & Hlo & Hhi).
  destruct (decide (sd = sd')) as [<-|Hne].
  - rewrite count_of_set_count_eq, orders_of_set_count, orders_of_set_orders_eq.
    split; [lia|]. intros i o0 Ho0.
    exists o0. split; [|apply order_later_refl].
    rewrite list_lookup_insert_ne; [exact Ho0|].
    intros <-.
    assert (Hin : (Z.to_nat (count_of sd b) < length (orders_of sd b))%nat)
      by (eapply lookup_lt_Some; exact Ho0).
    rewrite Hhi in Ho0 by lia. discriminate.
  - rewrite count_of_set_count_ne, count_of_set_orders by exact Hne.
    rewrite orders_of_set_count, orders_of_set_orders_ne by exact Hne.
    split; [lia|]. intros i o0 Ho0. exists o0.
    split; [exact Ho0|apply order_later_refl].
Qed.

Lemma effect_later (c : call) (w w' : world) :
  wf_world w -> effect w c w' -> world_later w w'.
Proof.
  intros Hwf [c0|ot t q p b Ht Hb Hlt|t b ks so j bo Ht Hb Hlow Hj Hjo He Hall].
  - apply world_later_refl.
  - eapply world_later_with_book; [exact Hb|]. simpl.
    apply book_later_appended. eapply (proj2 Hwf). exact Hb.
  - eapply world_later_with_book; [exact Hb|]. unfold settled. cbn [fst].
    eapply book_later_trans; [apply (book_later_alter Buy j b)|].
    exact (book_later_alter Sell ks
             (set_orders Buy (alter (fmap deactivate) j (buy_orders b)) b)).
Qed.

Lemma exec_later (c : call) (w : world) :
  wf_world w -> world_later w (snd (exec c w)).
Proof. intros Hwf. eapply effect_later; [exact Hwf|apply exec_effect; exact Hwf]. Qed.

(** Running a list of calls from a well-formed registry: no raise, a
    well-formed registry at the end, and every book later in its life. *)
Lemma exec_all_wf (cs : list call) (w : world) :
  wf_world w ->
  fst (exec_all cs w) = Val tt /\ wf_world (snd (exec_all cs w)) /\
  world_later w (snd (exec_all cs w)).
Proof.
  revert w. induction cs as [|c cs IH]; intros w Hwf.
  - simpl. split; [reflexivity|]. split; [exact Hwf|apply world_later_refl].
  - simpl. unfold bind.
    destruct (exec_wf c w Hwf) as [Hret Hwf'].
    pose proof (exec_later c w Hwf) as Hl.
    destruct (exec c w) as [r w1]. simpl in Hret, Hwf', Hl. subst r.
    destruct (IH w1 Hwf') as (Hr & Hw & Hl').
    split; [exact Hr|]. split; [exact Hw|].
    eapply world_later_trans; eassumption.
Qed.

Lemma exec_all_reachable (cs : list call) (w : world) :
  reachable w -> reachable (snd (exec_all cs w)).
Proof.
  revert w. induction cs as [|c cs IH]; intros w Hw.
  - exact Hw.
  - simpl. unfold bind.
    pose proof (exec_wf c w (reachable_wf w Hw)) as [Hret _].
    pose proof (reach_call c w Hw) as Hw1.
    destruct (exec c w) as [r w1]. simpl in Hret, Hw1. subst r.
    apply IH. exact Hw1.
Qed.

Lemma flt_inf_not_nan (a : pyfloat) : flt a PosInf = true -> a <> NaN.
Proof. intros H ->. discriminate. Qed.

(** There is at most one first cheapest active order. *)
Lemma lowest_active_unique (l : list slot) (n k k' : nat) (o o' : Order) :
  lowest_active l n k o -> lowest_active l n k' o' -> k = k' /\ o = o'.
Proof.
  intros (Hk & Hko & Ha & Hinf & Hmin) (Hk' & Hko' & Ha' & Hinf' & Hmin').
  assert (Hkk : k = k').
  { destruct (lt_eq_lt_dec k k') as [[Hlt|Heq]|Hgt]; [|exact Heq|].
    - exfalso. destruct (Hmin' k o Hk Hko Ha) as [_ Hle].
      specialize (Hle Hlt).
      apply fle_false_flt in Hle; try (apply flt_inf_not_nan; assumption).
      destruct (Hmin k' o' Hk' Hko' Ha') as [Hnlt _]. congruence.
    - exfalso. destruct (Hmin k' o' Hk' Hko' Ha') as [_ Hle].
      specialize (Hle Hgt).
      apply fle_false_flt in Hle; try (apply flt_inf_not_nan; assumption).
      destruct (Hmin' k o Hk Hko Ha) as [Hnlt _]. congruence. }
  split; [exact Hkk|]. subst k'. congruence.
Qed.

(** ** A call as a thread *)

Lemma pool_step_head (th : thread) (rest : list thread) (w : world) :
  pool_step 0 (th :: rest) w =
    match thread_step th w with
    | (Val th', w') => (th' :: rest, w')
    | (Exc _, w') => (Finished :: rest, w')
    end.
Proof. reflexivity. Qed.

(** A call that runs alone, its three steps in a row, is [addOrder]. *)
Lemma thread_alone (ot t q : Z) (p : pyfloat) (w : world) :
  wf_world w ->
  run_schedule [0; 0; 0]%nat [Entering ot t q p] w =
    ([Finished], snd (addOrder ot t q p w)).
Proof.
  intros Hwf. cbn [run_schedule]. destruct (decide (valid_ticker t)) as [Ht|Ht].
  - destruct (wf_world_lookup w t Hwf Ht) as (b & Hb & Hwb).
    rewrite (addOrder_valid ot t q p w b Ht Hb Hwb). cbn [snd].
    destruct (Hwb (side_of ot)) as (Hlen & Hc & _ & _).
    assert (Hfirst : thread_step (Entering ot t q p) w =
              (Val (if decide (count_of (side_of ot) b < MAX_ORDERS_PER_SIDE)
                    then HoldsIndex (side_of ot) ot t q p (count_of (side_of ot) b)
                    else Finished), w)).
    { unfold thread_step, valid_ticker in *.
      destruct (decide (t < 0 \/ t >= MAX_TICKERS)) as [Hbad|_]; [lia|].
      unfold bind. rewrite (on_book_valid t _ w b) by (lia || exact Hb).
      unfold load_count. cbn [fst snd].
      rewrite with_book_same by exact Hb.
      destruct (decide _); reflexivity. }
    rewrite pool_step_head, Hfirst.
    destruct (decide (count_of (side_of ot) b < MAX_ORDERS_PER_SIDE))
      as [Hlt|Hfull]; [|reflexivity].
    assert (Hstore :
      thread_step (HoldsIndex (side_of ot) ot t q p (count_of (side_of ot) b)) w =
        (Val (HasStored (side_of ot) t),
         with_book (Z.to_nat t)
           (set_orders (side_of ot)
              (<[Z.to_nat (count_of (side_of ot) b) := Some (new_Order ot t q p)]>
                 (orders_of (side_of ot) b)) b, stdout w) w)).
    { unfold thread_step, bind, valid_ticker in *.
      rewrite (on_book_valid t _ w b) by (lia || exact Hb).
      unfold store_slot, bind, get, or_IndexError, py_setitem. cbn [fst snd].
      rewrite py_index_nonneg by lia. reflexivity. }
    rewrite pool_step_head, Hstore, pool_step_head.
    unfold thread_step, bind, valid_ticker in *.
    erewrite on_book_valid;
      [|lia|simpl; apply list_lookup_insert_eq; eapply lookup_lt_Some; exact Hb].
    unfold incr_count. cbn [fst snd]. unfold ret.
    unfold with_book, appended. cbn [fst snd orderBooks stdout].
    rewrite list_insert_insert_eq, count_of_set_orders. reflexivity.
  - rewrite addOrder_invalid by exact Ht. cbn [snd].
    rewrite pool_step_head.
    unfold thread_step, valid_ticker in *.
    destruct (decide (t < 0 \/ t >= MAX_TICKERS)) as [_|Hn]; [|lia].
    reflexivity.
Qed.

(** The first two steps of a call that runs alone on a side below
    capacity, the read of the counter and the store: the order is in its
    slot and the counter is as it was. *)
Lemma thread_read_store (ot t q : Z) (p : pyfloat) (w : world) (b : OrderBook) :
  wf_world w -> valid_ticker t -> orderBooks w !! Z.to_nat t = Some b ->
  count_of (side_of ot) b < MAX_ORDERS_PER_SIDE ->
  run_schedule [0; 0]%nat [Entering ot t q p] w =
    ([HasStored (side_of ot) t],
     with_book (Z.to_nat t)
       (set_orders (side_of ot)
          (<[Z.to_nat (count_of (side_of ot) b) := Some (new_Order ot t q p)]>
             (orders_of (side_of ot) b)) b, stdout w) w).
Proof.
  intros Hwf Ht Hb Hlt. cbn [run_schedule].
  assert (Hwb : wf_book b) by (eapply (proj2 Hwf); exact Hb).
  destruct (Hwb (side_of ot)) as (Hlen & Hc & _ & _).
  assert (Hfirst : thread_step (Entering ot t q p) w =
            (Val (HoldsIndex (side_of ot) ot t q p (count_of (side_of ot) b)), w)).
  { unfold thread_step, valid_ticker in *.
    destruct (decide (t < 0 \/ t >= MAX_TICKERS)) as [Hbad|_]; [lia|].
    unfold bind. rewrite (on_book_valid t _ w b) by (lia || exact Hb).
    unfold load_count. cbn [fst snd].
    rewrite with_book_same by exact Hb.
    destruct (decide _) as [_|Hn]; [reflexivity|contradiction]. }
  rewrite pool_step_head, Hfirst, pool_step_head.
  unfold thread_step, bind, valid_ticker in *.
  rewrite (on_book_valid t _ w b) by (lia || exact Hb).
  unfold store_slot, bind, get, or_IndexError, py_setitem. cbn [fst snd].
  rewrite py_index_nonneg by lia. reflexivity.
Qed.

(** * The claims *)

(** ** C1: the sell order chosen by a match *)

(** The value the scan starts from is [float('inf')] and it moves on a
    strict [<] only, so a price of [+inf] is as good as no price: on
    ticker 5 of [inf_world], whose one sell order and one buy order are
    both priced [+inf], the scan ends with index [-1] and [matchOrder 5]
    changes nothing.  No real number is such a price. *)
Lemma sell_priced_inf_is_skipped :
  sell_orders (book_of inf_world 5) !! 0%nat =
    Some (Some (new_Order 1 5 10 PosInf)) /\
  sell_count (book_of inf_world 5) = 1 /\
  fst (find_lowest_sell (book_of inf_world 5, stdout inf_world)) =
    Val (PosInf, -1) /\
  stdout (snd (matchOrder 5 inf_world)) = [] /\
  sell_orders (book_of (snd (matchOrder 5 inf_world)) 5) !! 0%nat =
    Some (Some (new_Order 1 5 10 PosInf)).
Proof. vm_compute. repeat split; reflexivity. Qed.

(** C1: prices are real numbers (an order's price is a positive real; the
    load generator draws it between 0.1 and 100.0), and every real number
    is below [+inf].  On every reachable registry and every valid ticker
    with at least one active sell order so priced, the sell scan of
    [matchOrder] ends on the active sell order with the lowest price, the
    one in the lowest slot among equally cheap ones; the scan changes
    nothing, and the call either leaves the registry as it is or settles
    a buy order against exactly that sell order. *)
Theorem C1_lowest_active_sell_chosen (w : world) (t : Z) (b : OrderBook)
    (k0 : nat) (o0 : Order) :
  reachable w -> valid_ticker t -> orderBooks w !! Z.to_nat t = Some b ->
  (k0 < Z.to_nat (sell_count b))%nat ->
  sell_orders b !! k0 = Some (Some o0) -> active o0 = true ->
  flt (price o0) PosInf = true ->
  exists (k : nat) (o : Order),
    lowest_active (sell_orders b) (Z.to_nat (sell_count b)) k o /\
    find_lowest_sell (b, stdout w) = (Val (price o, Z.of_nat k), (b, stdout w)) /\
    (snd (matchOrder t w) = w \/
     exists (j : nat) (bo : Order),
       snd (matchOrder t w) =
       with_book (Z.to_nat t) (settled t (price o) j k bo (b, stdout w)) w).
Proof.
  intros Hreach Ht Hb Hk0 Hko0 Hact0 Hinf0.
  pose proof (reachable_wf w Hreach) as Hwf.
  assert (Hwb : wf_book b) by (eapply (proj2 Hwf); exact Hb).
  destruct (find_lowest_sell_spec b (stdout w) (Hwb Sell))
    as [[_ Hnone]|(k & o & Hrun & Hlow)].
  - rewrite (Hnone k0 o0 Hk0 Hko0 Hact0) in Hinf0. discriminate.
  - exists k, o. split; [exact Hlow|]. split; [exact Hrun|].
    rewrite (matchOrder_valid t w b Ht Hb). cbn [snd].
    destruct (match_book_spec t b (stdout w) Hwb)
      as [[Hm _]|(ks & so & j & bo & Hlow' & _ & _ & _ & _ & Hm)];
      rewrite Hm; cbn [snd].
    + left. apply with_book_same. exact Hb.
    + right. exists j, bo.
      destruct (lowest_active_unique _ _ _ _ _ _ Hlow Hlow') as [<- <-].
      reflexivity.
Qed.

Lemma C1_witness :
  exists (k : nat) (o : Order),
    lowest_active (sell_orders (book_of demo_world 5))
      (Z.to_nat (sell_count (book_of demo_world 5))) k o /\
    find_lowest_sell (book_of demo_world 5, stdout demo_world) =
      (Val (price o, Z.of_nat k), (book_of demo_world 5, stdout demo_world)) /\
    (snd (matchOrder 5 demo_world) = demo_world \/
     exists (j : nat) (bo : Order),
       snd (matchOrder 5 demo_world) =
       with_book (Z.to_nat 5)
         (settled 5 (price o) j k bo (book_of demo_world 5, stdout demo_world))
         demo_world).
Proof.
  apply (C1_lowest_active_sell_chosen demo_world 5 (book_of demo_world 5)
           0%nat (new_Order 1 5 10 (Fin 50))).
  - unfold demo_world. repeat apply reach_call. apply reach_init.
  - unfold valid_ticker, MAX_TICKERS. lia.
  - vm_compute. reflexivity.
  - vm_compute. lia.
  - vm_compute. reflexivity.
  - reflexivity.
  - reflexivity.
Defined.

(** ** C2: the match that is emitted *)

(** C2: on a reachable registry [matchOrder] returns [None] and either
    changes nothing and prints nothing, or prints exactly one line, for
    the first active buy order (in slot order) whose price is [>=] the
    price of the chosen sell order: the line carries that buy price, that
    sell price and the buy order's quantity, whatever the quantity of the
    sell order, and its buy price is [>=] its sell price. *)
Theorem C2_match_pairs_first_eligible_buy (w : world) (t : Z) :
  reachable w ->
  fst (matchOrder t w) = Val PyNone /\
  (snd (matchOrder t w) = w \/
   exists (b : OrderBook) (ks : nat) (so : Order) (j : nat) (bo : Order),
     valid_ticker t /\ orderBooks w !! Z.to_nat t = Some b /\
     lowest_active (sell_orders b) (Z.to_nat (sell_count b)) ks so /\
     (j < Z.to_nat (buy_count b))%nat /\
     buy_orders b !! j = Some (Some bo) /\
     active bo = true /\ fge (price bo) (price so) = true /\
     (forall (k : nat) (o : Order),
        (k < j)%nat -> buy_orders b !! k = Some (Some o) ->
        active o = true -> fge (price o) (price so) = false) /\
     stdout (snd (matchOrder t w)) =
       stdout w ++ [{| m_ticker := t; m_buy := price bo; m_sell := price so;
                       m_quantity := quantity bo |}] /\
     snd (matchOrder t w) =
       with_book (Z.to_nat t) (settled t (price so) j ks bo (b, stdout w)) w).
Proof.
  intros Hreach.
  pose proof (reachable_wf w Hreach) as Hwf.
  destruct (decide (valid_ticker t)) as [Ht|Ht];
    [|rewrite matchOrder_invalid by exact Ht; split; [reflexivity|left; reflexivity]].
  destruct (wf_world_lookup w t Hwf Ht) as (b & Hb & Hwb).
  rewrite (matchOrder_valid t w b Ht Hb). cbn [fst snd].
  destruct (match_book_spec t b (stdout w) Hwb)
    as [[Hm _]|(ks & so & j & bo & Hlow & Hj & Hjo & He & Hall & Hm)];
    rewrite Hm; cbn [fst snd].
  - split; [reflexivity|]. left. apply with_book_same. exact Hb.
  - split; [reflexivity|]. right. exists b, ks, so, j, bo.
    unfold eligible in He. apply andb_true_iff in He as [Ha Hge].
    split; [exact Ht|]. split; [exact Hb|].
    split; [exact Hlow|]. split; [exact Hj|]. split; [exact Hjo|].
    split; [exact Ha|]. split; [exact Hge|]. split; [|split; reflexivity].
    intros k o Hk Hko Hact. specialize (Hall k o Hk Hko).
    unfold eligible in Hall. rewrite Hact in Hall. exact Hall.
Qed.

Lemma C2_witness :
  fst (matchOrder 5 demo_world) = Val PyNone /\
  (snd (matchOrder 5 demo_world) = demo_world \/
   exists (b : OrderBook) (ks : nat) (so : Order) (j : nat) (bo : Order),
     valid_ticker 5 /\ orderBooks demo_world !! Z.to_nat 5 = Some b /\
     lowest_active (sell_orders b) (Z.to_nat (sell_count b)) ks so /\
     (j < Z.to_nat (buy_count b))%nat /\
     buy_orders b !! j = Some (Some bo) /\
     active bo = true /\ fge (price bo) (price so) = true /\
     (forall (k : nat) (o : Order),
        (k < j)%nat -> buy_orders b !! k = Some (Some o) ->
        active o = true -> fge (price o) (price so) = false) /\
     stdout (snd (matchOrder 5 demo_world)) =
       stdout demo_world ++
       [{| m_ticker := 5; m_buy := price bo; m_sell := price so;
           m_quantity := quantity bo |}] /\
     snd (matchOrder 5 demo_world) =
       with_book (Z.to_nat 5)
         (settled 5 (price so) j ks bo (b, stdout demo_world)) demo_world).
Proof.
  apply (C2_match_pairs_first_eligible_buy demo_world 5).
  unfold demo_world. repeat apply reach_call. apply reach_init.
Defined.

(** ** C3: a successful buy insertion *)

(** C3: on a reachable registry, [addOrder(0, t, q, p)] with a valid
    ticker whose buy side is below capacity returns [None] and replaces
    the book of [t] by one whose buy counter is one higher and whose slot
    at the old counter holds the new active order; the sell side, the
    other buy slots, the other books and the console are as before.

    The store comes before the increment.  The call in progress shows it:
    when it has read the counter and stored, the registry holds a book
    [b1] with the order in its slot and the counter at its old value, and
    its next step, the increment, ends the call in the state [addOrder]
    returns; [b1] is what the store statement makes of [b] and [b'] what
    the increment makes of [b1].  [addOrder] itself shows it where the
    store fails: on any registry whose list of buy slots is too short for
    the counter, the call raises [IndexError] and the counter has not
    moved. *)
Theorem C3_add_buy_order (w : world) (t q : Z) (p : pyfloat) (b : OrderBook) :
  reachable w -> valid_ticker t -> orderBooks w !! Z.to_nat t = Some b ->
  buy_count b < MAX_ORDERS_PER_SIDE ->
  let o := {| active := true; order_type := 0; ticker := t; quantity := q;
              price := p |} in
  let b' := {| buy_orders := <[Z.to_nat (buy_count b) := Some o]> (buy_orders b);
               sell_orders := sell_orders b;
               buy_count := buy_count b + 1;
               sell_count := sell_count b |} in
  addOrder 0 t q p w =
    (Val PyNone,
     {| orderBooks := <[Z.to_nat t := b']> (orderBooks w); stdout := stdout w |}) /\
  buy_orders b' !! Z.to_nat (buy_count b) = Some (Some o) /\
  (forall i : nat, i <> Z.to_nat (buy_count b) ->
     buy_orders b' !! i = buy_orders b !! i) /\
  (forall t' : nat, t' <> Z.to_nat t ->
     orderBooks (snd (addOrder 0 t q p w)) !! t' = orderBooks w !! t') /\
  orderBooks (snd (addOrder 0 t q p w)) !! Z.to_nat t = Some b' /\
  (exists b1 : OrderBook,
     store_slot Buy (buy_count b) (Some o) (b, stdout w) = (Val tt, (b1, stdout w)) /\
     buy_orders b1 !! Z.to_nat (buy_count b) = Some (Some o) /\
     buy_count b1 = buy_count b /\
     incr_count Buy (b1, stdout w) = (Val tt, (b', stdout w)) /\
     run_schedule [0; 0]%nat [Entering 0 t q p] w =
       ([HasStored Buy t],
        {| orderBooks := <[Z.to_nat t := b1]> (orderBooks w);
           stdout := stdout w |}) /\
     run_schedule [0; 0; 0]%nat [Entering 0 t q p] w =
       ([Finished], snd (addOrder 0 t q p w))) /\
  (forall (w' : world) (bs : OrderBook),
     orderBooks w' !! Z.to_nat t = Some bs ->
     0 <= buy_count bs < MAX_ORDERS_PER_SIDE ->
     Z.of_nat (length (buy_orders bs)) <= buy_count bs ->
     addOrder 0 t q p w' = (Exc IndexError, w')).
Proof.
  intros Hreach Ht Hb Hlt o b'.
  pose proof (reachable_wf w Hreach) as Hwf.
  assert (Hwb : wf_book b) by (eapply (proj2 Hwf); exact Hb).
  destruct (Hwb Buy) as (Hlen & Hc & _ & _). simpl in Hlen, Hc.
  assert (Hrun : addOrder 0 t q p w =
    (Val PyNone,
     {| orderBooks := <[Z.to_nat t := b']> (orderBooks w); stdout := stdout w |})).
  { rewrite (addOrder_valid 0 t q p w b Ht Hb Hwb).
    change (side_of 0) with Buy. simpl count_of.
    destruct (decide (buy_count b < MAX_ORDERS_PER_SIDE)) as [_|Hn]; [|lia].
    reflexivity. }
  split; [exact Hrun|].
  split; [apply list_lookup_insert_eq; lia|].
  split; [intros i Hi; apply list_lookup_insert_ne; congruence|].
  split; [intros t' Ht'; rewrite Hrun; apply list_lookup_insert_ne; congruence|].
  split; [rewrite Hrun; apply list_lookup_insert_eq; eapply lookup_lt_Some; exact Hb|].
  split.
  - exists {| buy_orders := <[Z.to_nat (buy_count b) := Some o]> (buy_orders b);
              sell_orders := sell_orders b;
              buy_count := buy_count b;
              sell_count := sell_count b |}.
    split.
    { unfold store_slot, bind, get, or_IndexError, py_setitem. simpl.
      rewrite py_index_nonneg by lia. reflexivity. }
    split; [apply list_lookup_insert_eq; lia|].
    split; [reflexivity|]. split; [reflexivity|]. split.
    + exact (thread_read_store 0 t q p w b Hwf Ht Hb Hlt).
    + exact (thread_alone 0 t q p w Hwf).
  - intros w' bs Hbs Hc' Hshort. unfold addOrder, valid_ticker in *.
    destruct (decide (t < 0 \/ t >= MAX_TICKERS)) as [Hbad|_]; [lia|].
    unfold bind. rewrite (on_book_valid t _ w' bs) by (lia || exact Hbs).
    destruct (decide (0 = 0)) as [_|Hn]; [|congruence].
    unfold add_side, bind, load_count. cbn [fst count_of].
    destruct (decide (buy_count bs < MAX_ORDERS_PER_SIDE)) as [_|Hn]; [|lia].
    unfold store_slot, bind, get, or_IndexError, py_setitem. cbn [fst orders_of].
    rewrite py_index_past_end by lia. cbn [fst snd raise].
    rewrite with_book_same by exact Hbs. reflexivity.
Qed.

Lemma C3_witness :
  let b := book_of demo_world 5 in
  let o := {| active := true; order_type := 0; ticker := 5; quantity := 7;
              price := Fin 61 |} in
  let b' := {| buy_orders := <[Z.to_nat (buy_count b) := Some o]> (buy_orders b);
               sell_orders := sell_orders b;
               buy_count := buy_count b + 1;
               sell_count := sell_count b |} in
  addOrder 0 5 7 (Fin 61) demo_world =
    (Val PyNone,
     {| orderBooks := <[Z.to_nat 5 := b']> (orderBooks demo_world);
        stdout := stdout demo_world |}) /\
  buy_orders b' !! Z.to_nat (buy_count b) = Some (Some o) /\
  (forall i : nat, i <> Z.to_nat (buy_count b) ->
     buy_orders b' !! i = buy_orders b !! i) /\
  (forall t' : nat, t' <> Z.to_nat 5 ->
     orderBooks (snd (addOrder 0 5 7 (Fin 61) demo_world)) !! t' =
     orderBooks demo_world !! t') /\
  orderBooks (snd (addOrder 0 5 7 (Fin 61) demo_world)) !! Z.to_nat 5 = Some b' /\
  (exists b1 : OrderBook,
     store_slot Buy (buy_count b) (Some o) (b, stdout demo_world) =
       (Val tt, (b1, stdout demo_world)) /\
     buy_orders b1 !! Z.to_nat (buy_count b) = Some (Some o) /\
     buy_count b1 = buy_count b /\
     incr_count Buy (b1, stdout demo_world) = (Val tt, (b', stdout demo_world)) /\
     run_schedule [0; 0]%nat [Entering 0 5 7 (Fin 61)] demo_world =
       ([HasStored Buy 5],
        {| orderBooks := <[Z.to_nat 5 := b1]> (orderBooks demo_world);
           stdout := stdout demo_world |}) /\
     run_schedule [0; 0; 0]%nat [Entering 0 5 7 (Fin 61)] demo_world =
       ([Finished], snd (addOrder 0 5 7 (Fin 61) demo_world))) /\
  (forall (w' : world) (bs : OrderBook),
     orderBooks w' !! Z.to_nat 5 = Some bs ->
     0 <= buy_count bs < MAX_ORDERS_PER_SIDE ->
     Z.of_nat (length (buy_orders bs)) <= buy_count bs ->
     addOrder 0 5 7 (Fin 61) w' = (Exc IndexError, w')).
Proof.
  apply (C3_add_buy_order demo_world 5 7 (Fin 61) (book_of demo_world 5)).
  - unfold demo_world. repeat apply reach_call. apply reach_init.
  - unfold valid_ticker, MAX_TICKERS. lia.
  - vm_compute. reflexivity.
  - vm_compute. reflexivity.
Defined.

(** ** C5: tickers out of range *)

(** C5, as stated, fails on the value handed back: with a ticker out of
    range both functions return [None], not an [InvalidTicker] value. *)
Lemma C5_counterexample :
  fst (addOrder 0 (-1) 10 (Fin 60) init_world) <> Val (Outcome InvalidTicker) /\
  fst (matchOrder 1024 init_world) <> Val (Outcome InvalidTicker).
Proof. split; vm_compute; discriminate. Qed.

(** C5 (amended): for every ticker outside [0, MAX_TICKERS) and every
    registry whatsoever, [addOrder] and [matchOrder] leave the whole state
    (books, slots, counters, flags, console) as it is and return [None]. *)
Theorem C5_invalid_ticker_changes_nothing (w : world) (ot t q : Z) (p : pyfloat) :
  ~ valid_ticker t ->
  addOrder ot t q p w = (Val PyNone, w) /\ matchOrder t w = (Val PyNone, w).
Proof.
  intros Ht. split.
  - apply addOrder_invalid. exact Ht.
  - apply matchOrder_invalid. exact Ht.
Qed.

Lemma C5_witness :
  addOrder 1 1024 10 (Fin 60) demo_world = (Val PyNone, demo_world) /\
  matchOrder 1024 demo_world = (Val PyNone, demo_world).
Proof.
  apply (C5_invalid_ticker_changes_nothing demo_world 1 1024 10 (Fin 60)).
  unfold valid_ticker, MAX_TICKERS. lia.
Defined.

(** ** C7: the scenario *)

(** C7, as stated, fails on the value handed back: the last call of the
    scenario returns [None], not a [Matched] value. *)
Lemma C7_counterexample :
  fst (scenario init_world) <>
  Val (Outcome (Matched {| m_ticker := 5; m_buy := Fin 60; m_sell := Fin 40;
                           m_quantity := 10 |})).
Proof. vm_compute. discriminate. Qed.

(** C7 (amended): from the initial registry the scenario ends with
    [matchOrder(5)] returning [None] after printing exactly one match,
    ticker 5, buy at 60.0, sell at 40.0, quantity 10; afterwards the sell
    order at 50.0 is still active, the sell order at 40.0 and the buy
    order are not. *)
Theorem C7_scenario :
  fst (scenario init_world) = Val PyNone /\
  stdout (snd (scenario init_world)) =
    [{| m_ticker := 5; m_buy := Fin 60; m_sell := Fin 40; m_quantity := 10 |}] /\
  slot_at (snd (scenario init_world)) 5 Sell 0 =
    Some (Some {| active := true; order_type := 1; ticker := 5;
                  quantity := 10; price := Fin 50 |}) /\
  slot_at (snd (scenario init_world)) 5 Sell 1 =
    Some (Some {| active := false; order_type := 1; ticker := 5;
                  quantity := 10; price := Fin 40 |}) /\
  slot_at (snd (scenario init_world)) 5 Buy 0 =
    Some (Some {| active := false; order_type := 0; ticker := 5;
                  quantity := 10; price := Fin 60 |}).
Proof. vm_compute. repeat split; reflexivity. Qed.

(** ** C10: what addOrder validates *)

(** C10: on a reachable registry, for a valid ticker whose target side is
    below capacity, [addOrder] accepts every order type, quantity and
    price: it returns [None] and the new slot holds an active order with
    exactly the values passed.  The target side is the buy side for order
    type 0 and the sell side for every other value. *)
Theorem C10_only_ticker_validated (w : world) (ot t q : Z) (p : pyfloat)
    (b : OrderBook) :
  reachable w -> valid_ticker t -> orderBooks w !! Z.to_nat t = Some b ->
  count_of (side_of ot) b < MAX_ORDERS_PER_SIDE ->
  (ot = 0 -> side_of ot = Buy) /\ (ot <> 0 -> side_of ot = Sell) /\
  fst (addOrder ot t q p w) = Val PyNone /\
  exists b' : OrderBook,
    orderBooks (snd (addOrder ot t q p w)) !! Z.to_nat t = Some b' /\
    count_of (side_of ot) b' = count_of (side_of ot) b + 1 /\
    orders_of (side_of ot) b' !! Z.to_nat (count_of (side_of ot) b) =
      Some (Some {| active := true; order_type := ot; ticker := t;
                    quantity := q; price := p |}).
Proof.
  intros Hreach Ht Hb Hlt.
  pose proof (reachable_wf w Hreach) as Hwf.
  assert (Hwb : wf_book b) by (eapply (proj2 Hwf); exact Hb).
  split; [intros ->; reflexivity|].
  split; [intros Hne; unfold side_of; destruct (decide (ot = 0)); congruence|].
  rewrite (addOrder_valid ot t q p w b Ht Hb Hwb).
  destruct (decide _) as [_|Hn]; [|lia]. cbn [fst snd].
  split; [reflexivity|].
  exists (appended (side_of ot) (new_Order ot t q p) b).
  destruct (Hwb (side_of ot)) as (Hlen & Hc & _ & _).
  split; [|split].
  - simpl. apply list_lookup_insert_eq. eapply lookup_lt_Some. exact Hb.
  - unfold appended. apply count_of_set_count_eq.
  - unfold appended. rewrite orders_of_set_count, orders_of_set_orders_eq.
    apply list_lookup_insert_eq. lia.
Qed.

Lemma C10_witness :
  (2 = 0 -> side_of 2 = Buy) /\ (2 <> 0 -> side_of 2 = Sell) /\
  fst (addOrder 2 5 0 (Fin (-5 # 2)) demo_world) = Val PyNone /\
  exists b' : OrderBook,
    orderBooks (snd (addOrder 2 5 0 (Fin (-5 # 2)) demo_world)) !! Z.to_nat 5 =
      Some b' /\
    count_of (side_of 2) b' = count_of (side_of 2) (book_of demo_world 5) + 1 /\
    orders_of (side_of 2) b' !!
      Z.to_nat (count_of (side_of 2) (book_of demo_world 5)) =
      Some (Some {| active := true; order_type := 2; ticker := 5;
                    quantity := 0; price := Fin (-5 # 2) |}).
Proof.
  apply (C10_only_ticker_validated demo_world 2 5 0 (Fin (-5 # 2))
           (book_of demo_world 5)).
  - unfold demo_world. repeat apply reach_call. apply reach_init.
  - unfold valid_ticker, MAX_TICKERS. lia.
  - vm_compute. reflexivity.
  - vm_compute. reflexivity.
Defined.

Lemma book_of_lookup (w : world) (t : Z) :
  wf_world w -> valid_ticker t ->
  orderBooks w !! Z.to_nat t = Some (book_of w t) /\ wf_book (book_of w t).
Proof.
  intros Hwf Ht. destruct (wf_world_lookup w t Hwf Ht) as (b & Hb & Hwb).
  unfold book_of. rewrite Hb. split; [reflexivity|exact Hwb].
Qed.

Lemma book_of_with_book_eq (w : world) (t : Z) (s : bstate) :
  wf_world w -> valid_ticker t ->
  book_of (with_book (Z.to_nat t) s w) t = fst s.
Proof.
  intros [Hlen _] Ht. unfold book_of, with_book, valid_ticker in *. simpl.
  rewrite list_lookup_insert_eq by (rewrite Hlen; lia). reflexivity.
Qed.

Lemma book_of_with_book_ne (w : world) (t t' : Z) (s : bstate) :
  valid_ticker t -> valid_ticker t' -> t' <> t ->
  book_of (with_book (Z.to_nat t') s w) t = book_of w t.
Proof.
  intros Ht Ht' Hne. unfold book_of, with_book, valid_ticker in *. simpl.
  rewrite list_lookup_insert_ne by lia. reflexivity.
Qed.

(** One call moves a counter by one exactly when it is an insertion on
    that side of that ticker and the side is below capacity. *)
Lemma exec_count (c : call) (w : world) (t : Z) (sd : side) :
  wf_world w -> valid_ticker t ->
  count_of sd (book_of (snd (exec c w)) t) =
    if adds_to t sd c
    then Z.min MAX_ORDERS_PER_SIDE (count_of sd (book_of w t) + 1)
    else count_of sd (book_of w t).
Proof.
  intros Hwf Ht.
  destruct (book_of_lookup w t Hwf Ht) as [Hb Hwb].
  destruct c as [ot t' q p|t']; simpl.
  - destruct (decide (valid_ticker t')) as [Ht'|Ht'].
    + destruct (book_of_lookup w t' Hwf Ht') as [Hb' Hwb'].
      rewrite (addOrder_valid ot t' q p w _ Ht' Hb' Hwb'). cbn [snd].
      destruct (decide (t' = t)) as [->|Hne].
      * destruct (decide (side_of ot = sd)) as [<-|Hsd].
        -- rewrite bool_decide_eq_true_2 by (split; reflexivity).
           destruct (Hwb (side_of ot)) as (_ & Hc & _ & _).
           destruct (decide _) as [Hlt|Hfull].
           ++ rewrite book_of_with_book_eq by assumption. cbn [fst].
              unfold appended. rewrite count_of_set_count_eq. lia.
           ++ lia.
        -- rewrite bool_decide_eq_false_2 by (intros [_ ?]; contradiction).
           destruct (decide _) as [Hlt|Hfull]; [|reflexivity].
           rewrite book_of_with_book_eq by assumption. cbn [fst].
           unfold appended.
           rewrite count_of_set_count_ne, count_of_set_orders by exact Hsd.
           reflexivity.
      * rewrite bool_decide_eq_false_2 by (intros [? _]; contradiction).
        destruct (decide _) as [Hlt|Hfull]; [|reflexivity].
        rewrite book_of_with_book_ne by assumption. reflexivity.
    + rewrite addOrder_invalid by exact Ht'. cbn [snd].
      rewrite bool_decide_eq_false_2; [reflexivity|].
      intros [-> _]. contradiction.
  - destruct (decide (valid_ticker t')) as [Ht'|Ht'].
    + destruct (book_of_lookup w t' Hwf Ht') as [Hb' Hwb'].
      rewrite (matchOrder_valid t' w _ Ht' Hb'). cbn [snd].
      destruct (match_book_spec t' (book_of w t') (stdout w) Hwb')
        as [[Hrun _]|(ks & so & j & bo & _ & _ & _ & _ & _ & Hrun)];
        rewrite Hrun; cbn [snd].
      * rewrite with_book_same by exact Hb'. reflexivity.
      * destruct (decide (t' = t)) as [->|Hne].
        -- rewrite book_of_with_book_eq by assumption. unfold settled.
           cbn [fst]. rewrite !count_of_set_orders. reflexivity.
        -- rewrite book_of_with_book_ne by assumption. reflexivity.
    + rewrite matchOrder_invalid by exact Ht'. reflexivity.
Qed.

Lemma insertions_nonneg (t : Z) (sd : side) (cs : list call) :
  0 <= insertions t sd cs.
Proof.
  induction cs as [|c cs IH]; simpl; [lia|].
  destruct (adds_to t sd c); lia.
Qed.

(** After a list of calls a counter stands at the number of insertions
    aimed at its side, capped at the capacity. *)
Lemma exec_all_count (cs : list call) (w : world) (t : Z) (sd : side) :
  wf_world w -> valid_ticker t ->
  count_of sd (book_of (snd (exec_all cs w)) t) =
    Z.min MAX_ORDERS_PER_SIDE (count_of sd (book_of w t) + insertions t sd cs).
Proof.
  revert w. induction cs as [|c cs IH]; intros w Hwf Ht.
  - simpl. destruct (book_of_lookup w t Hwf Ht) as [_ Hwb].
    destruct (Hwb sd) as (_ & Hc & _ & _). lia.
  - simpl. unfold bind.
    destruct (exec_wf c w Hwf) as [Hret Hwf'].
    pose proof (exec_count c w t sd Hwf Ht) as Hcount.
    destruct (exec c w) as [r w1]. simpl in Hret, Hwf', Hcount. subst r.
    rewrite (IH w1 Hwf' Ht), Hcount.
    pose proof (insertions_nonneg t sd cs).
    destruct (book_of_lookup w t Hwf Ht) as [_ Hwb].
    destruct (Hwb sd) as (_ & Hc & _ & _).
    destruct (adds_to t sd c); lia.
Qed.

Lemma addOrder_returns_None (ot t q : Z) (p : pyfloat) (w : world) :
  wf_world w -> fst (addOrder ot t q p w) = Val PyNone.
Proof. intros Hwf. exact (proj1 (exec_wf (AddOrder ot t q p) w Hwf)). Qed.

(** ** C4: a full side *)

(** C4, as stated, fails on the value handed back: on a registry whose
    buy side of ticker 5 has taken [MAX_ORDERS_PER_SIDE] insertions, the
    next [addOrder] there returns [None], not an [OrderBookFull] value. *)
Lemma C4_counterexample :
  fst (addOrder 0 5 10 (Fin 60)
         (snd (exec_all (repeat (AddOrder 0 5 10 (Fin 60)) 1024) init_world)))
  <> Val (Outcome OrderBookFull).
Proof.
  pose proof (exec_all_wf (repeat (AddOrder 0 5 10 (Fin 60)) 1024) init_world
                wf_world_init) as (_ & Hwf & _).
  rewrite (addOrder_returns_None 0 5 10 (Fin 60) _ Hwf). discriminate.
Qed.

(** C4 (amended): when the calls made so far include at least
    [MAX_ORDERS_PER_SIDE] insertions on one side of a valid ticker (so
    that exactly [MAX_ORDERS_PER_SIDE] of them went in and the counter
    stands at the capacity), the next [addOrder] on that side of that
    ticker returns [None] and leaves the whole state, slots and counters,
    as it is. *)
Theorem C4_full_side_rejects (cs : list call) (ot t q : Z) (p : pyfloat) :
  valid_ticker t ->
  MAX_ORDERS_PER_SIDE <= insertions t (side_of ot) cs ->
  count_of (side_of ot) (book_of (snd (exec_all cs init_world)) t) =
    MAX_ORDERS_PER_SIDE /\
  addOrder ot t q p (snd (exec_all cs init_world)) =
    (Val PyNone, snd (exec_all cs init_world)).
Proof.
  intros Ht Hins.
  pose proof (exec_all_wf cs init_world wf_world_init) as (_ & Hwf & _).
  pose proof (exec_all_count cs init_world t (side_of ot) wf_world_init Ht)
    as Hcount.
  destruct (book_of_lookup init_world t wf_world_init Ht) as [_ Hwb0].
  destruct (Hwb0 (side_of ot)) as (_ & Hc0 & _ & _).
  assert (Hfull : count_of (side_of ot) (book_of (snd (exec_all cs init_world)) t)
                  = MAX_ORDERS_PER_SIDE) by lia.
  split; [exact Hfull|].
  destruct (book_of_lookup _ t Hwf Ht) as [Hb Hwb].
  rewrite (addOrder_valid ot t q p _ _ Ht Hb Hwb).
  destruct (decide _) as [Hlt|_]; [lia|reflexivity].
Qed.

Lemma C4_witness :
  count_of (side_of 0)
    (book_of (snd (exec_all (repeat (AddOrder 0 5 10 (Fin 60)) 1024) init_world)) 5)
    = MAX_ORDERS_PER_SIDE /\
  addOrder 0 5 10 (Fin 61)
    (snd (exec_all (repeat (AddOrder 0 5 10 (Fin 60)) 1024) init_world)) =
    (Val PyNone,
     snd (exec_all (repeat (AddOrder 0 5 10 (Fin 60)) 1024) init_world)).
Proof.
  apply (C4_full_side_rejects (repeat (AddOrder 0 5 10 (Fin 60)) 1024)
           0 5 10 (Fin 61)).
  - unfold valid_ticker, MAX_TICKERS. lia.
  - vm_compute. discriminate.
Defined.

Lemma order_later_fields (o o' : Order) :
  order_later o o' ->
  order_type o' = order_type o /\ ticker o' = ticker o /\
  quantity o' = quantity o /\ price o' = price o /\
  (active o = false -> o' = o).
Proof.
  intros [->|[Ha ->]].
  - repeat split; reflexivity.
  - repeat split; try reflexivity. intros Hf. congruence.
Qed.

(** ** C8: the order-book invariant *)

(** C8: run any list of calls [cs] from the initial registry, then any
    further list [cs'].  Neither run raises.  After [cs] every side of
    every book has its counter between 0 and [MAX_ORDERS_PER_SIDE], an
    order in every slot below the counter and an empty slot at every
    index from the counter on.  After [cs'] the counter of that side is
    not lower, and every order is still in its slot with the same order
    type, ticker, quantity and price. *)
Theorem C8_order_book_invariant (cs cs' : list call) :
  fst (exec_all cs init_world) = Val tt /\
  fst (exec_all cs' (snd (exec_all cs init_world))) = Val tt /\
  length (orderBooks (snd (exec_all cs init_world))) = Z.to_nat MAX_TICKERS /\
  forall (t : nat) (b : OrderBook) (sd : side),
    orderBooks (snd (exec_all cs init_world)) !! t = Some b ->
    length (orders_of sd b) = Z.to_nat MAX_ORDERS_PER_SIDE /\
    0 <= count_of sd b <= MAX_ORDERS_PER_SIDE /\
    (forall i : nat, Z.of_nat i < count_of sd b ->
       exists o : Order, orders_of sd b !! i = Some (Some o)) /\
    (forall i : nat, count_of sd b <= Z.of_nat i < MAX_ORDERS_PER_SIDE ->
       orders_of sd b !! i = Some None) /\
    exists b' : OrderBook,
      orderBooks (snd (exec_all cs' (snd (exec_all cs init_world)))) !! t = Some b' /\
      count_of sd b <= count_of sd b' /\
      forall (i : nat) (o : Order),
        orders_of sd b !! i = Some (Some o) ->
        exists o' : Order,
          orders_of sd b' !! i = Some (Some o') /\
          order_type o' = order_type o /\ ticker o' = ticker o /\
          quantity o' = quantity o /\ price o' = price o.
Proof.
  destruct (exec_all_wf cs init_world wf_world_init) as (Hr & Hwf & _).
  destruct (exec_all_wf cs' _ Hwf) as (Hr' & _ & Hl).
  split; [exact Hr|]. split; [exact Hr'|]. split; [exact (proj1 Hwf)|].
  intros t b sd Hb.
  destruct (proj2 Hwf t b Hb sd) as (Hlen & Hc & Hlo & Hhi).
  split; [exact Hlen|]. split; [exact Hc|]. split; [exact Hlo|].
  split; [exact Hhi|].
  destruct (Hl t b Hb) as (b' & Hb' & Hbl).
  exists b'. split; [exact Hb'|]. destruct (Hbl sd) as [Hcount Hord].
  split; [exact Hcount|]. intros i o Ho.
  destruct (Hord i o Ho) as (o' & Ho' & Hlater).
  exists o'. split; [exact Ho'|].
  destruct (order_later_fields o o' Hlater) as (H1 & H2 & H3 & H4 & _).
  repeat split; assumption.
Qed.

(** ** C6: an order is used once *)

(** C6: take a reachable registry in which some slot of a valid ticker
    holds an order whose flag is cleared, and run any list of further
    calls.  The slot then still holds that very order, flag cleared; and
    on the registry so reached the sell scan of [matchOrder] does not end
    on that slot, nor is the slot the buy or the sell side of the pair
    the call settles. *)
Theorem C6_matched_order_never_chosen_again (w : world) (t : Z) (sd : side)
    (i : nat) (o : Order) (cs : list call) :
  reachable w -> valid_ticker t ->
  slot_at w (Z.to_nat t) sd i = Some (Some o) -> active o = false ->
  slot_at (snd (exec_all cs w)) (Z.to_nat t) sd i = Some (Some o) /\
  (forall (lp : pyfloat) (li : Z),
     fst (find_lowest_sell (book_of (snd (exec_all cs w)) t,
                            stdout (snd (exec_all cs w)))) = Val (lp, li) ->
     sd = Sell -> li <> Z.of_nat i) /\
  (forall j k : Z,
     fst (match_book t (book_of (snd (exec_all cs w)) t,
                        stdout (snd (exec_all cs w)))) = Val (Some (j, k)) ->
     (sd = Buy -> j <> Z.of_nat i) /\ (sd = Sell -> k <> Z.of_nat i)).
Proof.
  intros Hreach Ht Hslot Hina.
  pose proof (reachable_wf w Hreach) as Hwf.
  destruct (exec_all_wf cs w Hwf) as (_ & Hwf' & Hl).
  set (w' := snd (exec_all cs w)) in *.
  destruct (book_of_lookup w t Hwf Ht) as [Hb Hwb].
  destruct (book_of_lookup w' t Hwf' Ht) as [Hb' Hwb'].
  assert (Hslot' : orders_of sd (book_of w' t) !! i = Some (Some o)).
  { unfold slot_at in Hslot. rewrite Hb in Hslot.
    destruct (Hl _ _ Hb) as (b2 & Hb2 & Hbl).
    replace b2 with (book_of w' t) in Hbl by congruence.
    destruct (proj2 (Hbl sd) i o Hslot) as (o' & Ho' & Hlater).
    destruct (order_later_fields o o' Hlater) as (_ & _ & _ & _ & Hsame).
    rewrite (Hsame Hina) in Ho'. exact Ho'. }
  split; [unfold slot_at; rewrite Hb'; exact Hslot'|]. split.
  - intros lp li Hrun ->.
    destruct (find_lowest_sell_spec (book_of w' t) (stdout w') (Hwb' Sell))
      as [[Hrun' _]|(k & so & Hrun' & (_ & Hko & Hact & _))];
      rewrite Hrun' in Hrun; injection Hrun as <- <-.
    + lia.
    + intros Heq. apply Nat2Z.inj in Heq. subst k.
      simpl in Hslot'. congruence.
  - intros j k Hrun.
    destruct (match_book_spec t (book_of w' t) (stdout w') Hwb')
      as [[Hrun' _]|(ks & so & jb & bo & (_ & Hko & Hact & _) & _ & Hjo & He & _ & Hrun')];
      rewrite Hrun' in Hrun; [discriminate|].
    injection Hrun as <- <-. split; intros -> Heq;
      apply Nat2Z.inj in Heq; subst; simpl in Hslot'.
    + unfold eligible in He. apply andb_true_iff in He as [Ha _]. congruence.
    + congruence.
Qed.

Lemma C6_witness :
  let o := {| active := false; order_type := 1; ticker := 5; quantity := 10;
              price := Fin 40 |} in
  let cs := [AddOrder 0 5 10 (Fin 70); MatchOrder 5; MatchOrder 5] in
  slot_at (snd (exec_all cs matched_world)) (Z.to_nat 5) Sell 1 = Some (Some o) /\
  (forall (lp : pyfloat) (li : Z),
     fst (find_lowest_sell (book_of (snd (exec_all cs matched_world)) 5,
                            stdout (snd (exec_all cs matched_world)))) =
       Val (lp, li) ->
     Sell = Sell -> li <> Z.of_nat 1) /\
  (forall j k : Z,
     fst (match_book 5 (book_of (snd (exec_all cs matched_world)) 5,
                        stdout (snd (exec_all cs matched_world)))) =
       Val (Some (j, k)) ->
     (Sell = Buy -> j <> Z.of_nat 1) /\ (Sell = Sell -> k <> Z.of_nat 1)).
Proof.
  apply (C6_matched_order_never_chosen_again matched_world 5 Sell 1%nat
           {| active := false; order_type := 1; ticker := 5; quantity := 10;
              price := Fin 40 |}
           [AddOrder 0 5 10 (Fin 70); MatchOrder 5; MatchOrder 5]).
  - unfold matched_world, demo_world. repeat apply reach_call. apply reach_init.
  - unfold valid_ticker, MAX_TICKERS. lia.
  - vm_compute. reflexivity.
  - reflexivity.
Defined.

(** ** C9: concurrent insertions *)

(** One after the other, the two calls fill slots 0 and 1. *)
Lemma two_buyers_serial :
  let '(pool, w) := run_schedule serial_schedule two_buyers init_world in
  pool = [Finished; Finished] /\
  buy_count (book_of w 5) = 2 /\
  buy_orders (book_of w 5) !! 0%nat = Some (Some (new_Order 0 5 10 (Fin 60))) /\
  buy_orders (book_of w 5) !! 1%nat = Some (Some (new_Order 0 5 20 (Fin 61))).
Proof. vm_compute. repeat split; reflexivity. Qed.

(** C9 fails on the code: under [racy_schedule] both calls run to their
    end from the initial registry and the buy counter of ticker 5 ends at
    2, but both stored into slot 0.  Slot 0 holds the order of thread 1,
    the order of thread 0 is gone, and slot 1, below the counter, is
    empty. *)
Theorem C9_concurrent_insertion_lost :
  let '(pool, w) := run_schedule racy_schedule two_buyers init_world in
  pool = [Finished; Finished] /\
  buy_count (book_of w 5) = 2 /\
  buy_orders (book_of w 5) !! 0%nat = Some (Some (new_Order 0 5 20 (Fin 61))) /\
  buy_orders (book_of w 5) !! 1%nat = Some None /\
  forall i : nat, buy_orders (book_of w 5) !! i <> Some (Some (new_Order 0 5 10 (Fin 60))).
Proof.
  vm_compute. repeat split; try reflexivity.
  intros i. do 2 (destruct i as [|i]; [discriminate|]).
  revert i.
  assert (H : forall (n : nat) (i : nat),
            replicate n (@None Order) !! i <>
            Some (Some (new_Order 0 5 10 (Fin 60)))).
  { intros n i Hc. apply lookup_replicate in Hc as [Hc _]. discriminate. }
  intros i. exact (H 1022%nat i).
Qed.

(** * Further properties of the two operations *)

(** ** Isolation of tickers *)

Lemma on_book_other {A : Type} (t : Z) (m : BM A) (w : world) (k : nat) :
  0 <= t -> k <> Z.to_nat t ->
  orderBooks (snd (on_book t m w)) !! k = orderBooks w !! k.
Proof.
  intros Ht Hk. unfold on_book.
  destruct (py_index (orderBooks w) t) as [k0|] eqn:Hidx; [|reflexivity].
  assert (Hk0 : k0 = Z.to_nat t).
  { unfold py_index in Hidx. simpl in Hidx.
    repeat destruct (decide _) in Hidx; inversion Hidx; subst; lia. }
  subst k0. destruct (orderBooks w !! Z.to_nat t) as [b|]; [|reflexivity].
  destruct (m (b, stdout w)) as [r [b' out']]. simpl.
  apply list_lookup_insert_ne. congruence.
Qed.

(** X1: A call touches no book but the one of its own ticker.  This holds on
    every registry, well formed or not, and also when the call raises. *)
Theorem call_leaves_other_tickers (c : call) (w : world) (k : nat) :
  k <> Z.to_nat (call_ticker c) ->
  orderBooks (snd (exec c w)) !! k = orderBooks w !! k.
Proof.
  intros Hk. destruct c as [ot t q p|t]; simpl in *.
  - unfold addOrder. destruct (decide (t < 0 \/ t >= MAX_TICKERS)) as [|Hok];
      [reflexivity|].
    unfold bind.
    pose proof (on_book_other t
      (if decide (ot = 0) then add_side Buy ot t q p else add_side Sell ot t q p)
      w k ltac:(lia) Hk) as Hother.
    destruct (on_book t _ w) as [[r|e] w']; exact Hother.
  - unfold matchOrder. destruct (decide (t < 0 \/ t >= MAX_TICKERS)) as [|Hok];
      [reflexivity|].
    unfold bind.
    pose proof (on_book_other t (match_book t) w k ltac:(lia) Hk) as Hother.
    destruct (on_book t _ w) as [[r|e] w']; exact Hother.
Qed.

Lemma call_leaves_other_tickers_witness :
  orderBooks (snd (exec (MatchOrder 5) demo_world)) !! 6%nat =
  orderBooks demo_world !! 6%nat.
Proof.
  apply (call_leaves_other_tickers (MatchOrder 5) demo_world 6%nat).
  simpl. lia.
Defined.

(** ** What each operation leaves alone *)

(** X2: [addOrder] prints nothing and leaves every order already in a slot
    exactly as it is, flag included. *)
Theorem addOrder_keeps_orders_and_console (w : world) (ot t q : Z) (p : pyfloat) :
  reachable w ->
  stdout (snd (addOrder ot t q p w)) = stdout w /\
  forall (k : nat) (sd : side) (i : nat) (o : Order),
    slot_at w k sd i = Some (Some o) ->
    slot_at (snd (addOrder ot t q p w)) k sd i = Some (Some o).
Proof.
  intros Hreach. pose proof (reachable_wf w Hreach) as Hwf.
  destruct (decide (valid_ticker t)) as [Ht|Ht];
    [|rewrite addOrder_invalid by exact Ht; split; [reflexivity|tauto]].
  destruct (wf_world_lookup w t Hwf Ht) as (b & Hb & Hwb).
  rewrite (addOrder_valid ot t q p w b Ht Hb Hwb). cbn [snd].
  destruct (decide _) as [Hlt|_]; [|split; [reflexivity|tauto]].
  split; [reflexivity|].
  intros k sd i o Hslot. unfold slot_at in *. simpl.
  destruct (decide (k = Z.to_nat t)) as [->|Hne].
  - rewrite Hb in Hslot.
    rewrite list_lookup_insert_eq by (eapply lookup_lt_Some; exact Hb).
    unfold appended. rewrite orders_of_set_count.
    destruct (decide (side_of ot = sd)) as [<-|Hsd].
    + rewrite orders_of_set_orders_eq.
      rewrite list_lookup_insert_ne; [exact Hslot|].
      intros Heq. rewrite <- Heq in Hslot.
      destruct (Hwb (side_of ot)) as (_ & Hc & _ & Hhi).
      rewrite Hhi in Hslot by lia. discriminate.
    + rewrite orders_of_set_orders_ne by exact Hsd. exact Hslot.
  - rewrite list_lookup_insert_ne by congruence. exact Hslot.
Qed.

Lemma addOrder_keeps_orders_and_console_witness :
  stdout (snd (addOrder 1 5 3 (Fin 45) demo_world)) = stdout demo_world /\
  forall (k : nat) (sd : side) (i : nat) (o : Order),
    slot_at demo_world k sd i = Some (Some o) ->
    slot_at (snd (addOrder 1 5 3 (Fin 45) demo_world)) k sd i = Some (Some o).
Proof.
  apply (addOrder_keeps_orders_and_console demo_world 1 5 3 (Fin 45)).
  unfold demo_world. repeat apply reach_call. apply reach_init.
Defined.

(** X3: [matchOrder] moves no counter and fills no slot: in every book both
    counters are as before and an empty slot is still empty. *)
Theorem matchOrder_keeps_counters (w : world) (t : Z) (k : nat) (b : OrderBook) :
  reachable w -> orderBooks w !! k = Some b ->
  exists b' : OrderBook,
    orderBooks (snd (matchOrder t w)) !! k = Some b' /\
    forall sd : side,
      count_of sd b' = count_of sd b /\
      forall i : nat, orders_of sd b !! i = Some None ->
                      orders_of sd b' !! i = Some None.
Proof.
  intros Hreach Hk. pose proof (reachable_wf w Hreach) as Hwf.
  pose proof (exec_effect (MatchOrder t) w Hwf) as Heff. simpl in Heff.
  remember (snd (matchOrder t w)) as w' eqn:Ew. clear Ew.
  remember (MatchOrder t) as c eqn:Ec.
  destruct Heff as [c0|ot t0 q p b0 Ht Hb Hlt
                   |t0 b0 ks so j bo Ht Hb Hlow Hj Hjo He Hall];
    [|discriminate|injection Ec as ->].
  - exists b. split; [exact Hk|]. intros sd. split; [reflexivity|tauto].
  - simpl.
    destruct (decide (k = Z.to_nat t)) as [->|Hne].
    + replace b0 with b in * by congruence.
      eexists. split;
        [apply list_lookup_insert_eq; eapply lookup_lt_Some; exact Hb|].
      intros sd. split; [destruct sd; reflexivity|]. intros i Hi.
      destruct sd; simpl in *.
      * destruct (decide (j = i)) as [->|Hji].
        -- rewrite list_lookup_alter_eq, Hi. reflexivity.
        -- rewrite list_lookup_alter_ne by exact Hji. exact Hi.
      * destruct (decide (ks = i)) as [->|Hki].
        -- rewrite list_lookup_alter_eq, Hi. reflexivity.
        -- rewrite list_lookup_alter_ne by exact Hki. exact Hi.
    + exists b. split; [rewrite list_lookup_insert_ne by congruence; exact Hk|].
      intros sd. split; [reflexivity|tauto].
Qed.

Lemma matchOrder_keeps_counters_witness :
  exists b' : OrderBook,
    orderBooks (snd (matchOrder 5 demo_world)) !! 5%nat = Some b' /\
    forall sd : side,
      count_of sd b' = count_of sd (book_of demo_world 5) /\
      forall i : nat, orders_of sd (book_of demo_world 5) !! i = Some None ->
                      orders_of sd b' !! i = Some None.
Proof.
  apply (matchOrder_keeps_counters demo_world 5 5%nat (book_of demo_world 5)).
  - unfold demo_world. repeat apply reach_call. apply reach_init.
  - vm_compute. reflexivity.
Defined.

(** ** When a match is made *)

(** X4: [matchOrder] on a valid ticker prints a line exactly when the book has
    an active sell order priced below [+inf] and an active buy order
    whose price is [>=] the lowest such sell price.  It never passes over
    a pair it could settle, and never settles without one. *)
Theorem matchOrder_matches_iff (w : world) (t : Z) :
  reachable w -> valid_ticker t ->
  (exists (ks : nat) (so : Order) (j : nat) (bo : Order),
     lowest_active (sell_orders (book_of w t))
       (Z.to_nat (sell_count (book_of w t))) ks so /\
     (j < Z.to_nat (buy_count (book_of w t)))%nat /\
     buy_orders (book_of w t) !! j = Some (Some bo) /\
     active bo = true /\ fge (price bo) (price so) = true)
  <->
  length (stdout (snd (matchOrder t w))) = S (length (stdout w)).
Proof.
  intros Hreach Ht. pose proof (reachable_wf w Hreach) as Hwf.
  destruct (book_of_lookup w t Hwf Ht) as [Hb Hwb].
  rewrite (matchOrder_valid t w _ Ht Hb). cbn [snd].
  destruct (match_book_spec t (book_of w t) (stdout w) Hwb)
    as [[Hm Hwhy]|(ks & so & j & bo & Hlow & Hj & Hjo & He & Hall & Hm)];
    rewrite Hm; cbn [snd with_book stdout].
  - split; [|intros Hlen; lia].
    intros (ks & so & j & bo & Hlow & Hj & Hjo & Ha & Hge). exfalso.
    destruct Hwhy as [Hnone|(ks' & so' & Hlow' & Hall)].
    + destruct Hlow as (Hks & Hso & Hact & Hinf & _).
      rewrite (Hnone ks so Hks Hso Hact) in Hinf. discriminate.
    + destruct (lowest_active_unique _ _ _ _ _ _ Hlow Hlow') as [-> ->].
      specialize (Hall j bo Hj Hjo). unfold eligible in Hall.
      rewrite Ha, Hge in Hall. discriminate.
  - split.
    + intros _. unfold settled. cbn [snd]. rewrite length_app. simpl. lia.
    + intros _. exists ks, so, j, bo.
      unfold eligible in He. apply andb_true_iff in He as [Ha Hge].
      split; [exact Hlow|]. split; [exact Hj|]. split; [exact Hjo|].
      split; [exact Ha|exact Hge].
Qed.

Lemma matchOrder_matches_iff_witness :
  (exists (ks : nat) (so : Order) (j : nat) (bo : Order),
     lowest_active (sell_orders (book_of demo_world 5))
       (Z.to_nat (sell_count (book_of demo_world 5))) ks so /\
     (j < Z.to_nat (buy_count (book_of demo_world 5)))%nat /\
     buy_orders (book_of demo_world 5) !! j = Some (Some bo) /\
     active bo = true /\ fge (price bo) (price so) = true)
  <->
  length (stdout (snd (matchOrder 5 demo_world))) = S (length (stdout demo_world)).
Proof.
  apply (matchOrder_matches_iff demo_world 5).
  - unfold demo_world. repeat apply reach_call. apply reach_init.
  - unfold valid_ticker, MAX_TICKERS. lia.
Defined.

(** ** Invariants of the whole registry *)

Lemma lookup_alter_deactivate (l : list slot) (k i : nat) (o : Order) :
  alter (fmap deactivate) k l !! i = Some (Some o) ->
  exists o0 : Order,
    l !! i = Some (Some o0) /\ (o = o0 \/ o = deactivate o0).
Proof.
  intros H. destruct (decide (k = i)) as [->|Hne].
  - rewrite list_lookup_alter_eq in H.
    destruct (l !! i) as [[o0|]|]; simpl in H; try discriminate.
    injection H as <-. exists o0. split; [reflexivity|right; reflexivity].
  - rewrite list_lookup_alter_ne in H by exact Hne.
    exists o. split; [exact H|left; reflexivity].
Qed.

(** X5: Every order sits in the book of its own ticker and on the side its
    order type selects. *)
Theorem orders_filed_by_ticker_and_side (w : world) (k : nat) (b : OrderBook)
    (sd : side) (i : nat) (o : Order) :
  reachable w -> orderBooks w !! k = Some b ->
  orders_of sd b !! i = Some (Some o) ->
  ticker o = Z.of_nat k /\ side_of (order_type o) = sd.
Proof.
  intros Hreach. revert k b sd i o.
  induction Hreach as [|c w Hreach IH]; intros k b sd i o Hk Hi.
  - unfold init_world in Hk. cbn [orderBooks] in Hk.
    apply lookup_replicate in Hk as [-> _].
    assert (Hnew : orders_of sd new_OrderBook =
                   replicate (Z.to_nat MAX_ORDERS_PER_SIDE) None)
      by (destruct sd; reflexivity).
    rewrite Hnew in Hi. apply lookup_replicate in Hi as [Hi _]. discriminate.
  - pose proof (reachable_wf w Hreach) as Hwf.
    pose proof (exec_effect c w Hwf) as Heff.
    remember (snd (exec c w)) as w' eqn:Ew. clear Ew.
    destruct Heff as [c0|ot t0 q p b0 Ht Hb Hlt
                     |t0 b0 ks so j bo Ht Hb Hlow Hj Hjo He Hall].
    + eapply IH; eassumption.
    + simpl in Hk. destruct (decide (Z.to_nat t0 = k)) as [<-|Hne].
      * rewrite list_lookup_insert_eq in Hk by (eapply lookup_lt_Some; exact Hb).
        injection Hk as <-. unfold appended in Hi.
        rewrite orders_of_set_count in Hi.
        destruct (decide (side_of ot = sd)) as [<-|Hsd].
        -- rewrite orders_of_set_orders_eq in Hi.
           destruct (decide (Z.to_nat (count_of (side_of ot) b0) = i)) as [<-|Hci].
           ++ destruct (Hwf) as [_ Hall]. destruct (Hall _ _ Hb (side_of ot))
                as (Hlen & Hc & _ & _).
              rewrite list_lookup_insert_eq in Hi by lia.
              injection Hi as <-. simpl. unfold valid_ticker in Ht.
              split; [lia|reflexivity].
           ++ rewrite list_lookup_insert_ne in Hi by exact Hci.
              eapply IH; eassumption.
        -- rewrite orders_of_set_orders_ne in Hi by exact Hsd.
           eapply IH; eassumption.
      * rewrite list_lookup_insert_ne in Hk by exact Hne.
        eapply IH; eassumption.
    + simpl in Hk. destruct (decide (Z.to_nat t0 = k)) as [<-|Hne].
      * rewrite list_lookup_insert_eq in Hk by (eapply lookup_lt_Some; exact Hb).
        injection Hk as <-.
        assert (Hold : exists o0, orders_of sd b0 !! i = Some (Some o0) /\
                                  (o = o0 \/ o = deactivate o0)).
        { destruct sd; simpl in Hi.
          - apply lookup_alter_deactivate in Hi. exact Hi.
          - apply lookup_alter_deactivate in Hi. exact Hi. }
        destruct Hold as (o0 & Ho0 & Hoo).
        destruct (IH _ _ _ _ _ Hb Ho0) as [H1 H2].
        destruct Hoo as [->| ->]; simpl; split; assumption.
      * rewrite list_lookup_insert_ne in Hk by exact Hne.
        eapply IH; eassumption.
Qed.

Lemma orders_filed_by_ticker_and_side_witness :
  ticker (new_Order 1 5 10 (Fin 40)) = Z.of_nat 5 /\
  side_of (order_type (new_Order 1 5 10 (Fin 40))) = Sell.
Proof.
  apply (orders_filed_by_ticker_and_side demo_world 5%nat (book_of demo_world 5)
           Sell 1%nat (new_Order 1 5 10 (Fin 40))).
  - unfold demo_world. repeat apply reach_call. apply reach_init.
  - vm_compute. reflexivity.
  - vm_compute. reflexivity.
Defined.

(** X6: Every line ever printed names a ticker in range and a sell price
    below [+inf], and its buy price is [>=] its sell price. *)
Theorem printed_lines_sound (w : world) :
  reachable w -> Forall sound_line (stdout w).
Proof.
  induction 1 as [|c w Hreach IH].
  - constructor.
  - pose proof (reachable_wf w Hreach) as Hwf.
    pose proof (exec_effect c w Hwf) as Heff.
    remember (snd (exec c w)) as w' eqn:Ew. clear Ew.
    destruct Heff as [c0|ot t0 q p b0 Ht Hb Hlt
                     |t0 b0 ks so j bo Ht Hb Hlow Hj Hjo He Hall].
    + exact IH.
    + exact IH.
    + simpl. apply Forall_app. split; [exact IH|].
      constructor; [|constructor].
      unfold sound_line. simpl.
      unfold eligible in He. apply andb_true_iff in He as [_ Hge].
      split; [exact Ht|]. split; [apply Hlow|exact Hge].
Qed.

Lemma printed_lines_sound_witness :
  Forall sound_line (stdout (snd (exec (MatchOrder 5) demo_world))).
Proof.
  apply (printed_lines_sound (snd (exec (MatchOrder 5) demo_world))).
  unfold demo_world. repeat apply reach_call. apply reach_init.
Defined.

(** ** Cleared flags and printed lines balance *)

Lemma cleared_count_fill (l : list slot) (k : nat) (o : Order) :
  l !! k = Some None -> active o = true ->
  cleared_count (<[k := Some o]> l) = cleared_count l.
Proof.
  revert k. induction l as [|x l IH]; intros k Hk Ha; [reflexivity|].
  destruct k as [|k].
  - simpl in Hk. injection Hk as ->. simpl. rewrite Ha. reflexivity.
  - change (<[S k := Some o]> (x :: l)) with (x :: <[k := Some o]> l).
    cbn [cleared_count]. rewrite (IH k Hk Ha). reflexivity.
Qed.

Lemma cleared_count_clear (l : list slot) (k : nat) (o : Order) :
  l !! k = Some (Some o) -> active o = true ->
  cleared_count (alter (fmap deactivate) k l) = S (cleared_count l).
Proof.
  revert k. induction l as [|x l IH]; intros k Hk Ha; [discriminate|].
  destruct k as [|k].
  - simpl in Hk. injection Hk as ->. simpl. rewrite Ha. reflexivity.
  - change (alter (fmap deactivate) (S k) (x :: l))
      with (x :: alter (fmap deactivate) k l).
    cbn [cleared_count]. rewrite (IH k Hk Ha). lia.
Qed.

Lemma lines_for_snoc (t : Z) (out : list MatchLine) (l : MatchLine) :
  lines_for t (out ++ [l]) =
  (lines_for t out + (if decide (m_ticker l = t) then 1 else 0))%nat.
Proof.
  induction out as [|x out IH]; simpl.
  - lia.
  - rewrite IH. lia.
Qed.

Lemma cleared_count_replicate_None (n : nat) :
  cleared_count (replicate n None) = 0%nat.
Proof. induction n as [|n IH]; simpl; [reflexivity|exact IH]. Qed.

(** X7: On every reachable registry and for every valid ticker, the number of
    buy orders with a cleared flag, the number of sell orders with a
    cleared flag and the number of lines printed for that ticker are
    equal: a flag is cleared only in a printed pair. *)
Theorem cleared_flags_balance (w : world) (t : Z) :
  reachable w -> valid_ticker t ->
  cleared_count (buy_orders (book_of w t)) = lines_for t (stdout w) /\
  cleared_count (sell_orders (book_of w t)) = lines_for t (stdout w).
Proof.
  intros Hreach Ht. induction Hreach as [|c w Hreach IH].
  - unfold book_of, init_world. cbn [orderBooks stdout lines_for].
    unfold valid_ticker in Ht.
    rewrite lookup_replicate_2 by lia. cbn [default new_OrderBook buy_orders sell_orders].
    split; apply cleared_count_replicate_None.
  - pose proof (reachable_wf w Hreach) as Hwf.
    pose proof (exec_effect c w Hwf) as Heff.
    remember (snd (exec c w)) as w' eqn:Ew. clear Ew.
    destruct IH as [IHb IHs].
    destruct Heff as [c0|ot t0 q p b0 Ht0 Hb Hlt
                     |t0 b0 ks so j bo Ht0 Hb Hlow Hj Hjo He Hall].
    + split; assumption.
    + cbn [with_book stdout snd].
      destruct (decide (t0 = t)) as [->|Hne];
        [|rewrite book_of_with_book_ne by assumption; split; assumption].
      rewrite book_of_with_book_eq by assumption. cbn [fst].
      assert (Hb0 : book_of w t = b0) by (unfold book_of; rewrite Hb; reflexivity).
      rewrite Hb0 in IHb, IHs.
      destruct (proj2 Hwf _ _ Hb (side_of ot)) as (Hlen & Hc & _ & Hhi).
      unfold appended. destruct (side_of ot); simpl in *.
      * rewrite cleared_count_fill; [split; assumption|apply Hhi; lia|reflexivity].
      * rewrite cleared_count_fill; [split; assumption|apply Hhi; lia|reflexivity].
    + unfold with_book, settled. cbn [stdout snd fst].
      rewrite lines_for_snoc. cbn [m_ticker].
      destruct (decide (t0 = t)) as [->|Hne].
      * pose proof (book_of_with_book_eq w t
          (settled t (price so) j ks bo (b0, stdout w)) Hwf Ht) as Hbook.
        unfold with_book, settled in Hbook. cbn [fst snd] in Hbook.
        rewrite Hbook.
        assert (Hb0 : book_of w t = b0) by (unfold book_of; rewrite Hb; reflexivity).
        rewrite Hb0 in IHb, IHs.
        unfold eligible in He. apply andb_true_iff in He as [Ha _].
        destruct Hlow as (_ & Hso & Hsa & _).
        simpl. rewrite (cleared_count_clear _ _ _ Hjo Ha).
        rewrite (cleared_count_clear _ _ _ Hso Hsa). lia.
      * pose proof (book_of_with_book_ne w t t0
          (settled t0 (price so) j ks bo (b0, stdout w)) Ht Ht0 Hne) as Hbook.
        unfold with_book, settled in Hbook. cbn [fst snd] in Hbook.
        rewrite Hbook. lia.
Qed.

Lemma cleared_flags_balance_witness :
  cleared_count (buy_orders (book_of (snd (exec (MatchOrder 5) demo_world)) 5)) =
    lines_for 5 (stdout (snd (exec (MatchOrder 5) demo_world))) /\
  cleared_count (sell_orders (book_of (snd (exec (MatchOrder 5) demo_world)) 5)) =
    lines_for 5 (stdout (snd (exec (MatchOrder 5) demo_world))).
Proof.
  apply (cleared_flags_balance (snd (exec (MatchOrder 5) demo_world)) 5).
  - unfold demo_world. repeat apply reach_call. apply reach_init.
  - unfold valid_ticker, MAX_TICKERS. lia.
Defined.

(** ** Insertions on different tickers or sides commute *)

Lemma addOrder_world (ot t q : Z) (p : pyfloat) (w : world) :
  wf_world w -> valid_ticker t ->
  snd (addOrder ot t q p w) =
    if decide (count_of (side_of ot) (book_of w t) < MAX_ORDERS_PER_SIDE)
    then with_book (Z.to_nat t)
           (appended (side_of ot) (new_Order ot t q p) (book_of w t), stdout w) w
    else w.
Proof.
  intros Hwf Ht. destruct (book_of_lookup w t Hwf Ht) as [Hb Hwb].
  rewrite (addOrder_valid ot t q p w _ Ht Hb Hwb). reflexivity.
Qed.

Lemma appended_commute (sd1 sd2 : side) (o1 o2 : Order) (b : OrderBook) :
  sd1 <> sd2 ->
  appended sd2 o2 (appended sd1 o1 b) = appended sd1 o1 (appended sd2 o2 b).
Proof. destruct sd1, sd2; intros H; try congruence; reflexivity. Qed.

Lemma count_of_appended_ne (sd sd' : side) (o : Order) (b : OrderBook) :
  sd <> sd' -> count_of sd' (appended sd o b) = count_of sd' b.
Proof. destruct sd, sd'; intros H; try congruence; reflexivity. Qed.

Lemma wf_world_addOrder (ot t q : Z) (p : pyfloat) (w : world) :
  wf_world w -> wf_world (snd (addOrder ot t q p w)).
Proof. intros Hwf. exact (proj2 (exec_wf (AddOrder ot t q p) w Hwf)). Qed.

(** X8: Two [addOrder] calls that differ in ticker or in side give the same
    registry in either order. *)
Theorem addOrder_commute (w : world) (ot1 t1 q1 : Z) (p1 : pyfloat)
    (ot2 t2 q2 : Z) (p2 : pyfloat) :
  reachable w -> t1 <> t2 \/ side_of ot1 <> side_of ot2 ->
  snd (addOrder ot2 t2 q2 p2 (snd (addOrder ot1 t1 q1 p1 w))) =
  snd (addOrder ot1 t1 q1 p1 (snd (addOrder ot2 t2 q2 p2 w))).
Proof.
  intros Hreach Hdiff. pose proof (reachable_wf w Hreach) as Hwf.
  destruct (decide (valid_ticker t1)) as [Ht1|Ht1];
    [|rewrite !(addOrder_invalid ot1 t1) by exact Ht1; reflexivity].
  destruct (decide (valid_ticker t2)) as [Ht2|Ht2];
    [|rewrite !(addOrder_invalid ot2 t2) by exact Ht2; reflexivity].
  rewrite (addOrder_world ot2 t2 q2 p2 (snd (addOrder ot1 t1 q1 p1 w)))
    by (try apply wf_world_addOrder; assumption).
  rewrite (addOrder_world ot1 t1 q1 p1 (snd (addOrder ot2 t2 q2 p2 w)))
    by (try apply wf_world_addOrder; assumption).
  rewrite (addOrder_world ot1 t1 q1 p1 w), (addOrder_world ot2 t2 q2 p2 w)
    by assumption.
  set (sd1 := side_of ot1). set (sd2 := side_of ot2).
  set (o1 := new_Order ot1 t1 q1 p1). set (o2 := new_Order ot2 t2 q2 p2).
  destruct (decide (t1 = t2)) as [Heq|Hne].
  - subst t2. assert (Hsd : sd1 <> sd2) by (destruct Hdiff; [congruence|assumption]).
    set (b := book_of w t1).
    destruct (decide (count_of sd1 b < MAX_ORDERS_PER_SIDE)) as [H1|H1];
    destruct (decide (count_of sd2 b < MAX_ORDERS_PER_SIDE)) as [H2|H2];
      rewrite ?book_of_with_book_eq by assumption; cbn [fst snd stdout with_book];
      rewrite ?count_of_appended_ne by congruence; fold b.
    + destruct (decide (count_of sd2 b < MAX_ORDERS_PER_SIDE)); [|lia].
      destruct (decide (count_of sd1 b < MAX_ORDERS_PER_SIDE)); [|lia].
      unfold with_book. cbn [fst snd orderBooks stdout].
      rewrite !list_insert_insert_eq.
      rewrite (appended_commute sd1 sd2 o1 o2 b Hsd). reflexivity.
    + destruct (decide (count_of sd2 b < MAX_ORDERS_PER_SIDE)); [lia|].
      destruct (decide (count_of sd1 b < MAX_ORDERS_PER_SIDE)); [|lia].
      reflexivity.
    + destruct (decide (count_of sd2 b < MAX_ORDERS_PER_SIDE)); [|lia].
      destruct (decide (count_of sd1 b < MAX_ORDERS_PER_SIDE)); [lia|].
      reflexivity.
    + destruct (decide (count_of sd2 b < MAX_ORDERS_PER_SIDE)); [lia|].
      destruct (decide (count_of sd1 b < MAX_ORDERS_PER_SIDE)); [lia|].
      reflexivity.
  - set (b1 := book_of w t1). set (b2 := book_of w t2).
    destruct (decide (count_of sd1 b1 < MAX_ORDERS_PER_SIDE)) as [H1|H1];
    destruct (decide (count_of sd2 b2 < MAX_ORDERS_PER_SIDE)) as [H2|H2];
      rewrite ?book_of_with_book_ne by (assumption || congruence);
      fold b1; fold b2.
    + destruct (decide (count_of sd2 b2 < MAX_ORDERS_PER_SIDE)); [|lia].
      destruct (decide (count_of sd1 b1 < MAX_ORDERS_PER_SIDE)); [|lia].
      unfold with_book, valid_ticker in *. cbn [fst snd orderBooks stdout].
      rewrite list_insert_insert_ne by lia. reflexivity.
    + destruct (decide (count_of sd2 b2 < MAX_ORDERS_PER_SIDE)); [lia|].
      destruct (decide (count_of sd1 b1 < MAX_ORDERS_PER_SIDE)); [|lia].
      reflexivity.
    + destruct (decide (count_of sd2 b2 < MAX_ORDERS_PER_SIDE)); [|lia].
      destruct (decide (count_of sd1 b1 < MAX_ORDERS_PER_SIDE)); [lia|].
      reflexivity.
    + destruct (decide (count_of sd2 b2 < MAX_ORDERS_PER_SIDE)); [lia|].
      destruct (decide (count_of sd1 b1 < MAX_ORDERS_PER_SIDE)); [lia|].
      reflexivity.
Qed.

Lemma addOrder_commute_witness :
  snd (addOrder 1 5 2 (Fin 30) (snd (addOrder 0 5 1 (Fin 20) demo_world))) =
  snd (addOrder 0 5 1 (Fin 20) (snd (addOrder 1 5 2 (Fin 30) demo_world))).
Proof.
  apply (addOrder_commute demo_world 0 5 1 (Fin 20) 1 5 2 (Fin 30)).
  - unfold demo_world. repeat apply reach_call. apply reach_init.
  - right. vm_compute. discriminate.
Defined.

(** ** Slots are filled in arrival order *)

Lemma exec_all_cons (c : call) (cs : list call) (w : world) :
  wf_world w ->
  snd (exec_all (c :: cs) w) = snd (exec_all cs (snd (exec c w))).
Proof.
  intros Hwf. simpl. unfold bind.
  destruct (exec_wf c w Hwf) as [Hret _].
  destruct (exec c w) as [r w1]. simpl in Hret. subst r. reflexivity.
Qed.

Lemma inserted_from (cs : list call) (w : world) (t : Z) (sd : side)
    (k : nat) (o : Order) :
  wf_world w -> valid_ticker t ->
  inserted t sd cs !! k = Some o ->
  count_of sd (book_of w t) + Z.of_nat k < MAX_ORDERS_PER_SIDE ->
  exists o' : Order,
    orders_of sd (book_of (snd (exec_all cs w)) t)
      !! Z.to_nat (count_of sd (book_of w t) + Z.of_nat k) = Some (Some o') /\
    order_later o o'.
Proof.
  revert w k. induction cs as [|c cs IH]; intros w k Hwf Ht Hk Hroom;
    [discriminate|].
  rewrite exec_all_cons by exact Hwf.
  destruct (exec_wf c w Hwf) as [_ Hwf1].
  pose proof (exec_count c w t sd Hwf Ht) as Hcount.
  destruct (book_of_lookup w t Hwf Ht) as [Hb Hwb].
  destruct (Hwb sd) as (Hlen & Hc & _ & _).
  destruct c as [ot t' q p|t'].
  - cbn [inserted] in Hk.
    destruct (adds_to t sd (AddOrder ot t' q p)) eqn:Hadd.
    + simpl in Hadd. apply bool_decide_eq_true in Hadd as [-> <-].
      destruct k as [|k].
      * injection Hk as <-. rewrite Z.add_0_r.
        destruct (exec_all_wf cs _ Hwf1) as (_ & Hwf2 & Hl).
        destruct (book_of_lookup _ t Hwf1 Ht) as [Hb1 _].
        destruct (book_of_lookup _ t Hwf2 Ht) as [Hb2 _].
        destruct (Hl _ _ Hb1) as (b2 & Hb2' & Hbl).
        replace b2 with (book_of (snd (exec_all cs
                           (snd (exec (AddOrder ot t q p) w)))) t) in Hbl
          by congruence.
        apply (proj2 (Hbl (side_of ot))).
        simpl exec. rewrite (addOrder_world ot t q p w Hwf Ht).
        destruct (decide _) as [_|Hn]; [|lia].
        rewrite book_of_with_book_eq by assumption. cbn [fst].
        unfold appended. rewrite orders_of_set_count, orders_of_set_orders_eq.
        apply list_lookup_insert_eq. lia.
      * simpl in Hk.
        destruct (IH (snd (exec (AddOrder ot t q p) w)) k Hwf1 Ht Hk)
          as (o' & Ho' & Hlater).
        { rewrite Hcount. lia. }
        exists o'. split; [|exact Hlater].
        rewrite Hcount in Ho'.
        replace (count_of (side_of ot) (book_of w t) + Z.of_nat (S k))
          with (Z.min MAX_ORDERS_PER_SIDE
                  (count_of (side_of ot) (book_of w t) + 1) + Z.of_nat k) by lia.
        exact Ho'.
    + destruct (IH (snd (exec (AddOrder ot t' q p) w)) k Hwf1 Ht Hk)
        as (o' & Ho' & Hlater).
      { rewrite Hcount. exact Hroom. }
      exists o'. split; [|exact Hlater]. rewrite Hcount in Ho'. exact Ho'.
  - cbn [inserted] in Hk. simpl adds_to in Hcount.
    destruct (IH (snd (exec (MatchOrder t') w)) k Hwf1 Ht Hk)
      as (o' & Ho' & Hlater).
    { rewrite Hcount. exact Hroom. }
    exists o'. split; [|exact Hlater]. rewrite Hcount in Ho'. exact Ho'.
Qed.

(** X9: After any list of calls run from the initial registry, slot [k] of a
    side holds the order of the [k]-th [addOrder] call aimed at that side
    of that ticker, for every [k] below the capacity: with the values
    passed to the call, and with its flag either still set or cleared by
    a match. *)
Theorem slots_in_arrival_order (cs : list call) (t : Z) (sd : side)
    (k : nat) (o : Order) :
  valid_ticker t -> inserted t sd cs !! k = Some o ->
  Z.of_nat k < MAX_ORDERS_PER_SIDE ->
  orders_of sd (book_of (snd (exec_all cs init_world)) t) !! k = Some (Some o) \/
  (active o = true /\
   orders_of sd (book_of (snd (exec_all cs init_world)) t) !! k =
     Some (Some (deactivate o))).
Proof.
  intros Ht Hk Hroom.
  assert (Hc0 : count_of sd (book_of init_world t) = 0).
  { unfold book_of, init_world, valid_ticker in *. cbn [orderBooks].
    rewrite lookup_replicate_2 by lia. destruct sd; reflexivity. }
  destruct (inserted_from cs init_world t sd k o wf_world_init Ht Hk)
    as (o' & Ho' & Hlater); [lia|].
  rewrite Hc0, Z.add_0_l, Nat2Z.id in Ho'.
  destruct Hlater as [->|[Ha ->]]; [left|right; split]; assumption.
Qed.

Lemma slots_in_arrival_order_witness :
  let cs := [AddOrder 1 5 10 (Fin 50); AddOrder 0 5 10 (Fin 60);
             AddOrder 1 5 10 (Fin 40); MatchOrder 5] in
  let o := new_Order 1 5 10 (Fin 40) in
  orders_of Sell (book_of (snd (exec_all cs init_world)) 5) !! 1%nat =
    Some (Some o) \/
  (active o = true /\
   orders_of Sell (book_of (snd (exec_all cs init_world)) 5) !! 1%nat =
     Some (Some (deactivate o))).
Proof.
  apply (slots_in_arrival_order
           [AddOrder 1 5 10 (Fin 50); AddOrder 0 5 10 (Fin 60);
            AddOrder 1 5 10 (Fin 40); MatchOrder 5]
           5 Sell 1%nat (new_Order 1 5 10 (Fin 40))).
  - unfold valid_ticker, MAX_TICKERS. lia.
  - reflexivity.
  - unfold MAX_ORDERS_PER_SIDE. lia.
Defined.

(** ** A counter past the end of the list *)

(** The sell scan over a range that runs past the end of the list raises
    [IndexError] at the first index outside it, having changed nothing. *)
Lemma sell_scan_overrun (n a : nat) (lp : pyfloat) (li : Z) (s : bstate) :
  (a <= length (sell_orders (fst s)) < a + n)%nat ->
  sell_scan (map Z.of_nat (seq a n)) lp li s = (Exc IndexError, s).
Proof.
  revert a lp li. induction n as [|n IH]; intros a lp li Hlen; [lia|].
  simpl. unfold bind at 1.
  destruct (decide (a < length (sell_orders (fst s)))%nat) as [Hin|Hout].
  - destruct (lookup_lt_is_Some_2 _ _ Hin) as [x Hx].
    rewrite (load_slot_nat Sell a x s Hx).
    destruct x as [o|]; [|apply IH; lia].
    destruct (active o); [|apply IH; lia].
    destruct (flt (price o) lp); apply IH; lia.
  - unfold load_slot, bind, get, py_getitem. cbn [fst orders_of].
    rewrite py_index_past_end by lia. reflexivity.
Qed.

(** X10: When the sell counter of a book is larger than its list of slots is
    long, [matchOrder] on that ticker raises [IndexError] and leaves the
    registry as it is.  No sequence of calls gets there; two unlocked
    [addOrder] calls racing for the last slot do. *)
Theorem matchOrder_raises_past_list_end (w : world) (t : Z) (b : OrderBook) :
  valid_ticker t -> orderBooks w !! Z.to_nat t = Some b ->
  Z.of_nat (length (sell_orders b)) < sell_count b ->
  matchOrder t w = (Exc IndexError, w).
Proof.
  intros Ht Hb Hover.
  rewrite (matchOrder_valid t w b Ht Hb).
  assert (Hm : match_book t (b, stdout w) = (Exc IndexError, (b, stdout w))).
  { unfold match_book, bind at 1, find_lowest_sell, bind at 1, load_count.
    cbn [fst count_of]. unfold py_range.
    rewrite sell_scan_overrun by (cbn [fst]; lia). reflexivity. }
  rewrite Hm. cbn [fst snd]. rewrite with_book_same by exact Hb. reflexivity.
Qed.

Lemma matchOrder_raises_past_list_end_witness :
  matchOrder 5 overrun_world = (Exc IndexError, overrun_world).
Proof.
  apply (matchOrder_raises_past_list_end overrun_world 5
           (book_of overrun_world 5)).
  - unfold valid_ticker, MAX_TICKERS. lia.
  - vm_compute. reflexivity.
  - vm_compute. reflexivity.
Defined.

(** ** Threads that take turns *)

Lemma pool_step_middle (pre : list thread) (th : thread) (rest : list thread)
    (w : world) :
  pool_step (length pre) (pre ++ th :: rest) w =
    match thread_step th w with
    | (Val th', w') => (pre ++ th' :: rest, w')
    | (Exc _, w') => (pre ++ Finished :: rest, w')
    end.
Proof.
  unfold pool_step. rewrite list_lookup_middle by reflexivity.
  destruct (thread_step th w) as [[th'|e] w'];
    rewrite insert_app_r_alt by lia; rewrite Nat.sub_diag; reflexivity.
Qed.

Lemma run_schedule_app (s1 s2 : list nat) (pool : list thread) (w : world) :
  run_schedule (s1 ++ s2) pool w =
  run_schedule s2 (fst (run_schedule s1 pool w)) (snd (run_schedule s1 pool w)).
Proof.
  revert pool w. induction s1 as [|i s1 IH]; intros pool w; [reflexivity|].
  simpl. destruct (pool_step i pool w) as [pool' w']. apply IH.
Qed.

(** A thread in the middle of a pool steps as it would alone. *)
Lemma run_schedule_middle (k : nat) (pre : list thread) (th : thread)
    (rest : list thread) (w : world) :
  exists (th' : thread) (w' : world),
    run_schedule (replicate k 0%nat) [th] w = ([th'], w') /\
    run_schedule (replicate k (length pre)) (pre ++ th :: rest) w =
      (pre ++ th' :: rest, w').
Proof.
  revert th w. induction k as [|k IH]; intros th w.
  - exists th, w. split; reflexivity.
  - cbn [replicate run_schedule].
    rewrite pool_step_head, pool_step_middle.
    destruct (thread_step th w) as [[th1|e] w1]; apply IH.
Qed.

Lemma three_steps_middle (pre rest : list thread) (ot t q : Z) (p : pyfloat)
    (w : world) :
  wf_world w ->
  run_schedule [length pre; length pre; length pre]
    (pre ++ Entering ot t q p :: rest) w =
    (pre ++ Finished :: rest, snd (addOrder ot t q p w)).
Proof.
  intros Hwf.
  destruct (run_schedule_middle 3 pre (Entering ot t q p) rest w)
    as (th' & w' & Halone & Hmid).
  change (replicate 3 0%nat) with [0; 0; 0]%nat in Halone.
  rewrite (thread_alone ot t q p w Hwf) in Halone.
  injection Halone as <- <-. exact Hmid.
Qed.

Lemma replicate_snoc_app {A : Type} (m : nat) (x : A) (l : list A) :
  replicate m x ++ x :: l = replicate (S m) x ++ l.
Proof. induction m as [|m IH]; simpl; [reflexivity|]. rewrite IH. reflexivity. Qed.

Lemma threads_in_turn_from (args : list (Z * Z * Z * pyfloat)) (m : nat)
    (w : world) :
  wf_world w ->
  run_schedule (in_turn m (length args))
    (replicate m Finished ++ map thread_of args) w =
    (replicate (m + length args) Finished, snd (exec_all (map call_of args) w)).
Proof.
  revert m w. induction args as [|a args IH]; intros m w Hwf.
  - simpl. rewrite app_nil_r, Nat.add_0_r. reflexivity.
  - destruct a as [[[ot t] q] p].
    change (in_turn m (length ((ot, t, q, p) :: args)))
      with ([m; m; m] ++ in_turn (S m) (length args)).
    rewrite run_schedule_app. cbn [map thread_of call_of].
    pose proof (three_steps_middle (replicate m Finished) (map thread_of args)
                  ot t q p w Hwf) as Hthree.
    rewrite length_replicate in Hthree. rewrite Hthree. cbn [fst snd].
    rewrite replicate_snoc_app.
    rewrite (IH (S m) _ (wf_world_addOrder ot t q p w Hwf)).
    rewrite exec_all_cons by exact Hwf. simpl exec.
    replace (S m + length args)%nat
      with (m + length ((ot, t, q, p) :: args))%nat by (simpl; lia).
    reflexivity.
Qed.

(** X11: When the threads take turns, each running its three steps before the
    next starts, any number of [addOrder] calls leaves exactly the
    registry that the same calls made one after the other leave, and
    every thread has finished. *)
Theorem threads_in_turn_are_sequential (args : list (Z * Z * Z * pyfloat))
    (w : world) :
  reachable w ->
  run_schedule (in_turn 0 (length args)) (map thread_of args) w =
    (replicate (length args) Finished, snd (exec_all (map call_of args) w)).
Proof.
  intros Hreach.
  exact (threads_in_turn_from args 0 w (reachable_wf w Hreach)).
Qed.

Lemma threads_in_turn_are_sequential_witness :
  let args := [(0, 5, 10, Fin 60); (0, 5, 20, Fin 61); (1, 7, 1, Fin 3)] in
  run_schedule (in_turn 0 (length args)) (map thread_of args) demo_world =
    (replicate (length args) Finished,
     snd (exec_all (map call_of args) demo_world)).
Proof.
  apply (threads_in_turn_are_sequential
           [(0, 5, 10, Fin 60); (0, 5, 20, Fin 61); (1, 7, 1, Fin 3)] demo_world).
  unfold demo_world. repeat apply reach_call. apply reach_init.
Defined.

(** * The load generators *)

Lemma simulateAddOrders_loop_calls (rnd : Z -> draw) (idxs : list Z) (w : world) :
  simulateAddOrders_loop rnd idxs w = exec_all (map (add_call rnd) idxs) w.
Proof.
  revert w. induction idxs as [|i idxs IH]; intros w; [reflexivity|].
  simpl. unfold bind. destruct (addOrder _ _ _ _ w) as [[r|e] w1];
    [apply IH|reflexivity].
Qed.

Lemma simulateMatchOrders_loop_calls (rnd : Z -> Z) (idxs : list Z) (w : world) :
  simulateMatchOrders_loop rnd idxs w = exec_all (map (match_call rnd) idxs) w.
Proof.
  revert w. induction idxs as [|i idxs IH]; intros w; [reflexivity|].
  simpl. unfold bind. destruct (matchOrder _ w) as [[r|e] w1];
    [apply IH|reflexivity].
Qed.

Lemma simulateAddOrders_world (numOrders : Z) (rnd : Z -> draw) (w : world) :
  wf_world w ->
  simulateAddOrders numOrders rnd w =
    (Val PyNone, snd (exec_all (map (add_call rnd) (py_range numOrders)) w)).
Proof.
  intros Hwf. unfold simulateAddOrders, bind.
  rewrite simulateAddOrders_loop_calls.
  destruct (exec_all_wf (map (add_call rnd) (py_range numOrders)) w Hwf)
    as (Hret & _ & _).
  destruct (exec_all _ w) as [r w1]. simpl in Hret. subst r. reflexivity.
Qed.

Lemma simulateMatchOrders_world (numMatches : Z) (rnd : Z -> Z) (w : world) :
  wf_world w ->
  simulateMatchOrders numMatches rnd w =
    (Val PyNone, snd (exec_all (map (match_call rnd) (py_range numMatches)) w)).
Proof.
  intros Hwf. unfold simulateMatchOrders, bind.
  rewrite simulateMatchOrders_loop_calls.
  destruct (exec_all_wf (map (match_call rnd) (py_range numMatches)) w Hwf)
    as (Hret & _ & _).
  destruct (exec_all _ w) as [r w1]. simpl in Hret. subst r. reflexivity.
Qed.

Lemma generator_reachable_reachable (w : world) :
  generator_reachable w -> reachable w.
Proof.
  induction 1 as [|n rnd w _ IH _|n rnd w _ IH].
  - apply reach_init.
  - rewrite simulateAddOrders_world by (apply reachable_wf; exact IH).
    apply exec_all_reachable. exact IH.
  - rewrite simulateMatchOrders_world by (apply reachable_wf; exact IH).
    apply exec_all_reachable. exact IH.
Qed.

(** Where an order found after a call comes from: it was in that slot
    before, with its flag as now or still set, or it is the order the
    call is inserting. *)
Lemma exec_provenance (c : call) (w : world) (k : nat) (b' : OrderBook)
    (sd : side) (i : nat) (o : Order) :
  wf_world w -> orderBooks (snd (exec c w)) !! k = Some b' ->
  orders_of sd b' !! i = Some (Some o) ->
  (exists (b : OrderBook) (o0 : Order),
     orderBooks w !! k = Some b /\ orders_of sd b !! i = Some (Some o0) /\
     (o = o0 \/ o = deactivate o0))
  \/
  (exists (ot t q : Z) (p : pyfloat),
     c = AddOrder ot t q p /\ o = new_Order ot t q p).
Proof.
  intros Hwf Hk Hi.
  pose proof (exec_effect c w Hwf) as Heff.
  remember (snd (exec c w)) as w' eqn:Ew. clear Ew.
  destruct Heff as [c0|ot t0 q p b0 Ht Hb Hlt
                   |t0 b0 ks so j bo Ht Hb Hlow Hj Hjo He Hall].
  - left. exists b', o. split; [exact Hk|]. split; [exact Hi|left; reflexivity].
  - simpl in Hk. destruct (decide (Z.to_nat t0 = k)) as [<-|Hne].
    + rewrite list_lookup_insert_eq in Hk by (eapply lookup_lt_Some; exact Hb).
      injection Hk as <-. unfold appended in Hi.
      rewrite orders_of_set_count in Hi.
      destruct (decide (side_of ot = sd)) as [<-|Hsd].
      * rewrite orders_of_set_orders_eq in Hi.
        destruct (decide (Z.to_nat (count_of (side_of ot) b0) = i)) as [<-|Hci].
        -- destruct (proj2 Hwf _ _ Hb (side_of ot)) as (Hlen & Hc & _ & _).
           rewrite list_lookup_insert_eq in Hi by lia.
           injection Hi as <-. right. exists ot, t0, q, p. split; reflexivity.
        -- rewrite list_lookup_insert_ne in Hi by exact Hci.
           left. exists b0, o. split; [exact Hb|]. split; [exact Hi|left; reflexivity].
      * rewrite orders_of_set_orders_ne in Hi by exact Hsd.
        left. exists b0, o. split; [exact Hb|]. split; [exact Hi|left; reflexivity].
    + rewrite list_lookup_insert_ne in Hk by exact Hne.
      left. exists b', o. split; [exact Hk|]. split; [exact Hi|left; reflexivity].
  - simpl in Hk. destruct (decide (Z.to_nat t0 = k)) as [<-|Hne].
    + rewrite list_lookup_insert_eq in Hk by (eapply lookup_lt_Some; exact Hb).
      injection Hk as <-. left. exists b0.
      assert (Hold : exists o0, orders_of sd b0 !! i = Some (Some o0) /\
                                (o = o0 \/ o = deactivate o0)).
      { destruct sd; simpl in Hi; apply lookup_alter_deactivate in Hi; exact Hi. }
      destruct Hold as (o0 & Ho0 & Hoo). exists o0.
      split; [exact Hb|]. split; assumption.
    + rewrite list_lookup_insert_ne in Hk by exact Hne.
      left. exists b', o. split; [exact Hk|]. split; [exact Hi|left; reflexivity].
Qed.

Lemma generated_deactivate (o : Order) : generated o -> generated (deactivate o).
Proof. intros H. exact H. Qed.

Lemma exec_all_generated (cs : list call) (w : world) :
  wf_world w -> all_generated_in w ->
  (forall (ot t q : Z) (p : pyfloat),
     In (AddOrder ot t q p) cs -> generated (new_Order ot t q p)) ->
  all_generated_in (snd (exec_all cs w)).
Proof.
  revert w. induction cs as [|c cs IH]; intros w Hwf Hgen Hcalls.
  - exact Hgen.
  - rewrite exec_all_cons by exact Hwf.
    apply IH.
    + apply exec_wf. exact Hwf.
    + intros k b sd i o Hk Hi.
      destruct (exec_provenance c w k b sd i o Hwf Hk Hi)
        as [(b0 & o0 & Hb0 & Ho0 & Hoo)|(ot & t & q & p & -> & ->)].
      * pose proof (Hgen _ _ _ _ _ Hb0 Ho0) as Hg.
        destruct Hoo as [->| ->]; [exact Hg|apply generated_deactivate; exact Hg].
      * apply Hcalls. left. reflexivity.
    + intros ot t q p Hin. apply Hcalls. right. exact Hin.
Qed.

Lemma all_generated_in_init : all_generated_in init_world.
Proof.
  intros k b sd i o Hk Hi. exfalso.
  unfold init_world in Hk. cbn [orderBooks] in Hk.
  apply lookup_replicate in Hk as [-> _].
  assert (Hnew : orders_of sd new_OrderBook =
                 replicate (Z.to_nat MAX_ORDERS_PER_SIDE) None)
    by (destruct sd; reflexivity).
  rewrite Hnew in Hi. apply lookup_replicate in Hi as [Hi _]. discriminate.
Qed.

Lemma generator_all_generated (w : world) :
  generator_reachable w -> all_generated_in w.
Proof.
  induction 1 as [|n rnd w Hgen IH Hdoc|n rnd w Hgen IH].
  - exact all_generated_in_init.
  - pose proof (reachable_wf w (generator_reachable_reachable w Hgen)) as Hwf.
    rewrite simulateAddOrders_world by exact Hwf. cbn [snd].
    apply exec_all_generated; [exact Hwf|exact IH|].
    intros ot t q p Hin. apply in_map_iff in Hin as (i & Heq & _).
    unfold add_call in Heq. injection Heq as <- <- <- <-.
    destruct (Hdoc i) as (Hty & _ & Hq & Hlo & Hhi).
    unfold generated. simpl. repeat split; assumption || lia.
  - pose proof (reachable_wf w (generator_reachable_reachable w Hgen)) as Hwf.
    rewrite simulateMatchOrders_world by exact Hwf. cbn [snd].
    apply exec_all_generated; [exact Hwf|exact IH|].
    intros ot t q p Hin. apply in_map_iff in Hin as (i & Heq & _).
    discriminate.
Qed.

(** X13: Every order in a registry that the generators have produced from the
    initial one has order type 0 or 1, a quantity from 1 to 100 and a
    price from 0.1 to 100.0. *)
Theorem generator_orders_in_range (w : world) (k : nat) (b : OrderBook)
    (sd : side) (i : nat) (o : Order) :
  generator_reachable w -> orderBooks w !! k = Some b ->
  orders_of sd b !! i = Some (Some o) ->
  0 <= order_type o <= 1 /\ 1 <= quantity o <= 100 /\
  fle (Fin tenth) (price o) = true /\ fle (price o) (Fin 100) = true.
Proof.
  intros Hgen Hk Hi. exact (generator_all_generated w Hgen k b sd i o Hk Hi).
Qed.

Lemma generator_orders_in_range_witness :
  let o := new_Order 1 5 10 (Fin 40) in
  0 <= order_type o <= 1 /\ 1 <= quantity o <= 100 /\
  fle (Fin tenth) (price o) = true /\ fle (price o) (Fin 100) = true.
Proof.
  apply (generator_orders_in_range
           (snd (simulateAddOrders 3 steady_draw init_world)) 5%nat
           (book_of (snd (simulateAddOrders 3 steady_draw init_world)) 5)
           Sell 2%nat (new_Order 1 5 10 (Fin 40))).
  - apply gen_add; [apply gen_init|].
    intros i. unfold documented_draw, steady_draw, MAX_TICKERS. simpl.
    repeat split; lia || reflexivity.
  - vm_compute. reflexivity.
  - vm_compute. reflexivity.
Defined.

Lemma exec_stdout_step (c : call) (w : world) :
  wf_world w ->
  stdout (snd (exec c w)) = stdout w \/
  exists l : MatchLine, stdout (snd (exec c w)) = stdout w ++ [l].
Proof.
  intros Hwf. pose proof (exec_effect c w Hwf) as Heff.
  remember (snd (exec c w)) as w' eqn:Ew. clear Ew.
  destruct Heff as [c0|ot t0 q p b0 Ht Hb Hlt
                   |t0 b0 ks so j bo Ht Hb Hlow Hj Hjo He Hall].
  - left. reflexivity.
  - left. reflexivity.
  - right. eexists. reflexivity.
Qed.

Lemma exec_all_stdout (cs : list call) (w : world) :
  wf_world w ->
  exists printed : list MatchLine,
    stdout (snd (exec_all cs w)) = stdout w ++ printed /\
    (length printed <= length cs)%nat.
Proof.
  revert w. induction cs as [|c cs IH]; intros w Hwf.
  - exists []. simpl. rewrite app_nil_r. split; [reflexivity|lia].
  - rewrite exec_all_cons by exact Hwf.
    destruct (IH _ (proj2 (exec_wf c w Hwf))) as (pr & Hpr & Hlen).
    destruct (exec_stdout_step c w Hwf) as [Hsame|[l Hl]].
    + exists pr. rewrite Hpr, Hsame. split; [reflexivity|simpl; lia].
    + exists (l :: pr). rewrite Hpr, Hl, <- app_assoc.
      split; [reflexivity|simpl; lia].
Qed.

Lemma insertions_match_calls (rnd : Z -> Z) (idxs : list Z) (t : Z) (sd : side) :
  insertions t sd (map (match_call rnd) idxs) = 0.
Proof. induction idxs as [|i idxs IH]; simpl; [reflexivity|exact IH]. Qed.

(** X15: [simulateMatchOrders], whatever tickers it draws, returns [None],
    prints at most one line per iteration, only adds to what was printed,
    and moves no counter. *)
Theorem simulateMatchOrders_bounds (numMatches : Z) (rnd : Z -> Z) (w : world)
    (t : Z) (sd : side) :
  reachable w -> valid_ticker t ->
  fst (simulateMatchOrders numMatches rnd w) = Val PyNone /\
  count_of sd (book_of (snd (simulateMatchOrders numMatches rnd w)) t) =
    count_of sd (book_of w t) /\
  exists printed : list MatchLine,
    stdout (snd (simulateMatchOrders numMatches rnd w)) = stdout w ++ printed /\
    Z.of_nat (length printed) <= Z.max 0 numMatches.
Proof.
  intros Hreach Ht. pose proof (reachable_wf w Hreach) as Hwf.
  rewrite simulateMatchOrders_world by exact Hwf. cbn [fst snd].
  split; [reflexivity|]. split.
  - rewrite exec_all_count by assumption.
    rewrite insertions_match_calls.
    destruct (book_of_lookup w t Hwf Ht) as [_ Hwb].
    destruct (Hwb sd) as (_ & Hc & _ & _). lia.
  - destruct (exec_all_stdout (map (match_call rnd) (py_range numMatches)) w Hwf)
      as (pr & Hpr & Hlen).
    exists pr. split; [exact Hpr|].
    rewrite length_map in Hlen. unfold py_range in Hlen.
    rewrite length_map, length_seq in Hlen. lia.
Qed.

Lemma simulateMatchOrders_bounds_witness :
  fst (simulateMatchOrders 4 (fun _ => 5) demo_world) = Val PyNone /\
  count_of Buy (book_of (snd (simulateMatchOrders 4 (fun _ => 5) demo_world)) 5) =
    count_of Buy (book_of demo_world 5) /\
  exists printed : list MatchLine,
    stdout (snd (simulateMatchOrders 4 (fun _ => 5) demo_world)) =
      stdout demo_world ++ printed /\
    Z.of_nat (length printed) <= Z.max 0 4.
Proof.
  apply (simulateMatchOrders_bounds 4 (fun _ => 5) demo_world 5 Buy).
  - unfold demo_world. repeat apply reach_call. apply reach_init.
  - unfold valid_ticker, MAX_TICKERS. lia.
Defined.

Lemma exec_all_adds_stdout (rnd : Z -> draw) (idxs : list Z) (w : world) :
  wf_world w ->
  stdout (snd (exec_all (map (add_call rnd) idxs) w)) = stdout w.
Proof.
  revert w. induction idxs as [|i idxs IH]; intros w Hwf; [reflexivity|].
  cbn [map]. rewrite exec_all_cons by exact Hwf.
  rewrite IH by (apply exec_wf; exact Hwf).
  pose proof (exec_effect (add_call rnd i) w Hwf) as Heff.
  remember (snd (exec (add_call rnd i) w)) as w' eqn:Ew. clear Ew.
  unfold add_call in Heff.
  remember (AddOrder _ _ _ _) as c eqn:Ec.
  destruct Heff as [c0|ot t0 q p b0 Ht Hb Hlt
                   |t0 b0 ks so j bo Ht Hb Hlow Hj Hjo He Hall];
    [reflexivity|reflexivity|discriminate].
Qed.

(** X14: [simulateAddOrders], whatever it draws, returns [None] and prints
    nothing, and each counter ends at what it was plus the number of
    iterations that drew its ticker and side, capped at the capacity:
    orders drawn for a full side are dropped. *)
Theorem simulateAddOrders_counts (numOrders : Z) (rnd : Z -> draw) (w : world)
    (t : Z) (sd : side) :
  reachable w -> valid_ticker t ->
  fst (simulateAddOrders numOrders rnd w) = Val PyNone /\
  stdout (snd (simulateAddOrders numOrders rnd w)) = stdout w /\
  count_of sd (book_of (snd (simulateAddOrders numOrders rnd w)) t) =
    Z.min MAX_ORDERS_PER_SIDE
      (count_of sd (book_of w t) +
       insertions t sd (map (add_call rnd) (py_range numOrders))).
Proof.
  intros Hreach Ht. pose proof (reachable_wf w Hreach) as Hwf.
  rewrite simulateAddOrders_world by exact Hwf. cbn [fst snd].
  split; [reflexivity|]. split.
  - apply exec_all_adds_stdout. exact Hwf.
  - apply exec_all_count; assumption.
Qed.

Lemma simulateAddOrders_counts_witness :
  fst (simulateAddOrders 3 steady_draw demo_world) = Val PyNone /\
  stdout (snd (simulateAddOrders 3 steady_draw demo_world)) = stdout demo_world /\
  count_of Sell (book_of (snd (simulateAddOrders 3 steady_draw demo_world)) 5) =
    Z.min MAX_ORDERS_PER_SIDE
      (count_of Sell (book_of demo_world 5) +
       insertions 5 Sell (map (add_call steady_draw) (py_range 3))).
Proof.
  apply (simulateAddOrders_counts 3 steady_draw demo_world 5 Sell).
  - unfold demo_world. repeat apply reach_call. apply reach_init.
  - unfold valid_ticker, MAX_TICKERS. lia.
Defined.

Lemma flt_false_fle (a b : pyfloat) :
  a <> NaN -> b <> NaN -> flt a b = false -> fle b a = true.
Proof.
  destruct a as [ | | x | ], b as [ | | y | ]; simpl; try congruence.
  intros _ _. destruct (Qcompare_spec x y) as [Heq|Hlt|Hgt]; try discriminate.
  - intros _. destruct (Qcompare_spec y x) as [|H|H]; try reflexivity.
    exfalso. rewrite Heq in H. exact (Qlt_irrefl _ H).
  - intros _. destruct (Qcompare_spec y x) as [|H|H]; try reflexivity.
    exfalso. exact (Qlt_irrefl _ (Qlt_trans _ _ _ H Hgt)).
Qed.

Lemma generated_price_ordinary (o : Order) :
  generated o -> price o <> NaN /\ flt (price o) PosInf = true.
Proof.
  intros (_ & _ & Hlo & Hhi).
  destruct (price o); simpl in *; try discriminate; split; congruence.
Qed.

(** X16: On a registry produced by the generators, every ticker with at least
    one active sell order has one chosen by the sell scan, and the chosen
    order is the cheapest in the plain sense: its price is [<=] the price
    of every active sell order and [<] the price of every active sell
    order in a lower slot. *)
Theorem generator_lowest_sell_chosen (w : world) (t : Z) (k0 : nat) (o0 : Order) :
  generator_reachable w -> valid_ticker t ->
  (k0 < Z.to_nat (sell_count (book_of w t)))%nat ->
  sell_orders (book_of w t) !! k0 = Some (Some o0) -> active o0 = true ->
  exists (k : nat) (o : Order),
    find_lowest_sell (book_of w t, stdout w) =
      (Val (price o, Z.of_nat k), (book_of w t, stdout w)) /\
    (k < Z.to_nat (sell_count (book_of w t)))%nat /\
    sell_orders (book_of w t) !! k = Some (Some o) /\ active o = true /\
    forall (k' : nat) (o' : Order),
      (k' < Z.to_nat (sell_count (book_of w t)))%nat ->
      sell_orders (book_of w t) !! k' = Some (Some o') -> active o' = true ->
      fle (price o) (price o') = true /\
      ((k' < k)%nat -> flt (price o) (price o') = true).
Proof.
  intros Hgen Ht Hk0 Hko0 Hact0.
  pose proof (generator_all_generated w Hgen) as Hall.
  pose proof (reachable_wf w (generator_reachable_reachable w Hgen)) as Hwf.
  destruct (book_of_lookup w t Hwf Ht) as [Hb Hwb].
  assert (Hord : forall (i : nat) (x : Order),
            sell_orders (book_of w t) !! i = Some (Some x) ->
            price x <> NaN /\ flt (price x) PosInf = true).
  { intros i x Hx. apply generated_price_ordinary.
    exact (Hall _ _ Sell i x Hb Hx). }
  destruct (find_lowest_sell_spec (book_of w t) (stdout w) (Hwb Sell))
    as [[_ Hnone]|(k & o & Hrun & (Hk & Hko & Hact & _ & Hmin))].
  - destruct (Hord k0 o0 Hko0) as [_ Hc].
    rewrite (Hnone k0 o0 Hk0 Hko0 Hact0) in Hc. discriminate.
  - exists k, o. split; [exact Hrun|]. split; [exact Hk|].
    split; [exact Hko|]. split; [exact Hact|].
    intros k' o' Hk' Hko' Hact'.
    destruct (Hmin k' o' Hk' Hko' Hact') as [Hnlt Hnle].
    destruct (Hord k o Hko) as [Hn _]. destruct (Hord k' o' Hko') as [Hn' _].
    split.
    + apply flt_false_fle; assumption.
    + intros Hlt. apply fle_false_flt; [assumption|assumption|].
      apply Hnle. exact Hlt.
Qed.

Lemma generator_lowest_sell_chosen_witness :
  let w := snd (simulateAddOrders 3 steady_draw init_world) in
  exists (k : nat) (o : Order),
    find_lowest_sell (book_of w 5, stdout w) =
      (Val (price o, Z.of_nat k), (book_of w 5, stdout w)) /\
    (k < Z.to_nat (sell_count (book_of w 5)))%nat /\
    sell_orders (book_of w 5) !! k = Some (Some o) /\ active o = true /\
    forall (k' : nat) (o' : Order),
      (k' < Z.to_nat (sell_count (book_of w 5)))%nat ->
      sell_orders (book_of w 5) !! k' = Some (Some o') -> active o' = true ->
      fle (price o) (price o') = true /\
      ((k' < k)%nat -> flt (price o) (price o') = true).
Proof.
  apply (generator_lowest_sell_chosen
           (snd (simulateAddOrders 3 steady_draw init_world)) 5 1%nat
           (new_Order 1 5 10 (Fin 40))).
  - apply gen_add; [apply gen_init|].
    intros i. unfold documented_draw, steady_draw, MAX_TICKERS. simpl.
    repeat split; lia || reflexivity.
  - unfold valid_ticker, MAX_TICKERS. lia.
  - vm_compute. lia.
  - vm_compute. reflexivity.
  - reflexivity.
Defined.

(** * Threads on different tickers *)

(** One step of a thread that has run undisturbed on its book: it does
    not raise, it touches that book only, and it is one stage further. *)
Lemma stage_step (ot t q : Z) (p : pyfloat) (b0 : OrderBook) (th : thread)
    (b : OrderBook) (w : world) :
  wf_book b0 -> valid_ticker t -> stage ot t q p b0 th b ->
  orderBooks w !! Z.to_nat t = Some b ->
  exists (th' : thread) (b' : OrderBook),
    thread_step th w =
      (Val th', {| orderBooks := <[Z.to_nat t := b']> (orderBooks w);
                   stdout := stdout w |}) /\
    stage ot t q p b0 th' b'.
Proof.
  intros Hwf Ht Hst Hb. unfold valid_ticker in Ht.
  destruct (Hwf (side_of ot)) as (Hlen & Hc & _ & _).
  assert (Hsame : {| orderBooks := <[Z.to_nat t := b]> (orderBooks w);
                     stdout := stdout w |} = w).
  { rewrite list_insert_id by exact Hb. destruct w; reflexivity. }
  destruct Hst as [|Hlt|Hlt|Hlt|Hfull].
  - unfold thread_step.
    destruct (decide (t < 0 \/ t >= MAX_TICKERS)) as [Hbad|_]; [lia|].
    unfold bind. rewrite (on_book_valid t _ w b0) by (lia || exact Hb).
    unfold load_count. cbn [fst snd].
    rewrite with_book_same by exact Hb.
    destruct (decide (count_of (side_of ot) b0 < MAX_ORDERS_PER_SIDE)) as [Hlt|Hfull].
    + exists (HoldsIndex (side_of ot) ot t q p (count_of (side_of ot) b0)), b0.
      rewrite Hsame. split; [reflexivity|constructor; exact Hlt].
    + exists Finished, b0. rewrite Hsame.
      split; [reflexivity|apply stage_full; exact Hfull].
  - unfold thread_step, bind.
    rewrite (on_book_valid t _ w b0) by (lia || exact Hb).
    unfold store_slot, bind, get, or_IndexError, py_setitem. cbn [fst snd].
    rewrite py_index_nonneg by lia.
    eexists _, _. split; [reflexivity|]. apply stage_stored. exact Hlt.
  - unfold thread_step, bind.
    erewrite on_book_valid by (lia || exact Hb).
    unfold incr_count. cbn [fst snd]. rewrite count_of_set_orders.
    eexists _, _. split; [reflexivity|]. apply stage_inserted. exact Hlt.
  - exists Finished, (appended (side_of ot) (new_Order ot t q p) b0).
    rewrite Hsame. split; [reflexivity|apply stage_inserted; exact Hlt].
  - exists Finished, b0.
    rewrite Hsame. split; [reflexivity|apply stage_full; exact Hfull].
Qed.

(** Under any schedule, two threads on different tickers each stay
    undisturbed on their own book. *)
Lemma two_threads_stages (sch : list nat) (w0 : world)
    (ot1 t1 q1 : Z) (p1 : pyfloat) (ot2 t2 q2 : Z) (p2 : pyfloat)
    (th1 th2 : thread) (B1 B2 : OrderBook) :
  wf_world w0 -> valid_ticker t1 -> valid_ticker t2 -> t1 <> t2 ->
  stage ot1 t1 q1 p1 (book_of w0 t1) th1 B1 ->
  stage ot2 t2 q2 p2 (book_of w0 t2) th2 B2 ->
  exists (th1' th2' : thread) (B1' B2' : OrderBook),
    run_schedule sch [th1; th2]
      (with_two_books (Z.to_nat t1) B1 (Z.to_nat t2) B2 w0) =
      ([th1'; th2'], with_two_books (Z.to_nat t1) B1' (Z.to_nat t2) B2' w0) /\
    stage ot1 t1 q1 p1 (book_of w0 t1) th1' B1' /\
    stage ot2 t2 q2 p2 (book_of w0 t2) th2' B2'.
Proof.
  intros Hwf Ht1 Ht2 Hne.
  destruct (book_of_lookup w0 t1 Hwf Ht1) as [Hb1 Hwb1].
  destruct (book_of_lookup w0 t2 Hwf Ht2) as [Hb2 Hwb2].
  assert (Hk : Z.to_nat t1 <> Z.to_nat t2)
    by (unfold valid_ticker in *; lia).
  assert (Hl1 : (Z.to_nat t1 < length (orderBooks w0))%nat)
    by (eapply lookup_lt_Some; exact Hb1).
  assert (Hl2 : (Z.to_nat t2 < length (orderBooks w0))%nat)
    by (eapply lookup_lt_Some; exact Hb2).
  revert th1 th2 B1 B2. induction sch as [|i sch IH]; intros th1 th2 B1 B2 Hs1 Hs2.
  - exists th1, th2, B1, B2. repeat split; assumption.
  - cbn [run_schedule].
    destruct i as [|[|i]].
    + destruct (stage_step ot1 t1 q1 p1 _ th1 B1
                  (with_two_books (Z.to_nat t1) B1 (Z.to_nat t2) B2 w0)
                  Hwb1 Ht1 Hs1) as (th1' & B1' & Hstep & Hs1').
      { unfold with_two_books. cbn [orderBooks].
        rewrite list_lookup_insert_ne by congruence.
        apply list_lookup_insert_eq. exact Hl1. }
      rewrite pool_step_head, Hstep.
      unfold with_two_books at 1. cbn [orderBooks stdout].
      rewrite list_insert_insert_ne by congruence.
      rewrite list_insert_insert_eq.
      apply (IH th1' th2 B1' B2 Hs1' Hs2).
    + destruct (stage_step ot2 t2 q2 p2 _ th2 B2
                  (with_two_books (Z.to_nat t1) B1 (Z.to_nat t2) B2 w0)
                  Hwb2 Ht2 Hs2) as (th2' & B2' & Hstep & Hs2').
      { unfold with_two_books. cbn [orderBooks].
        apply list_lookup_insert_eq. rewrite length_insert. exact Hl2. }
      change (pool_step 1 [th1; th2] ?w)
        with (pool_step (length [th1]) ([th1] ++ th2 :: []) w).
      rewrite pool_step_middle, Hstep.
      unfold with_two_books at 1. cbn [orderBooks stdout app].
      rewrite list_insert_insert_eq.
      apply (IH th1 th2' B1 B2' Hs1 Hs2').
    + change (pool_step (S (S i)) [th1; th2] ?w) with ([th1; th2], w).
      apply (IH th1 th2 B1 B2 Hs1 Hs2).
Qed.

Lemma stage_finished_is_addOrder (ot t q : Z) (p : pyfloat) (w : world)
    (B : OrderBook) :
  wf_world w -> valid_ticker t ->
  stage ot t q p (book_of w t) Finished B ->
  snd (addOrder ot t q p w) =
    {| orderBooks := <[Z.to_nat t := B]> (orderBooks w); stdout := stdout w |}.
Proof.
  intros Hwf Ht Hst. destruct (book_of_lookup w t Hwf Ht) as [Hb _].
  rewrite (addOrder_world ot t q p w Hwf Ht).
  inversion Hst as [| | |Hlt HB|Hfull HB].
  - destruct (decide _) as [_|Hn]; [reflexivity|contradiction].
  - destruct (decide _) as [Hlt|_]; [contradiction|].
    rewrite list_insert_id by exact Hb. destruct w; reflexivity.
Qed.

(** X12: Two unlocked [addOrder] calls on different valid tickers do not
    disturb each other: under every schedule that lets both run to their
    end, the registry is the one the two calls leave when made one after
    the other. *)
Theorem threads_on_different_tickers (w : world) (sch : list nat)
    (ot1 t1 q1 : Z) (p1 : pyfloat) (ot2 t2 q2 : Z) (p2 : pyfloat) :
  reachable w -> valid_ticker t1 -> valid_ticker t2 -> t1 <> t2 ->
  fst (run_schedule sch [Entering ot1 t1 q1 p1; Entering ot2 t2 q2 p2] w) =
    [Finished; Finished] ->
  snd (run_schedule sch [Entering ot1 t1 q1 p1; Entering ot2 t2 q2 p2] w) =
    snd (addOrder ot2 t2 q2 p2 (snd (addOrder ot1 t1 q1 p1 w))).
Proof.
  intros Hreach Ht1 Ht2 Hne Hdone.
  pose proof (reachable_wf w Hreach) as Hwf.
  destruct (book_of_lookup w t1 Hwf Ht1) as [Hb1 _].
  destruct (book_of_lookup w t2 Hwf Ht2) as [Hb2 _].
  assert (Hstart : with_two_books (Z.to_nat t1) (book_of w t1)
                     (Z.to_nat t2) (book_of w t2) w = w).
  { unfold with_two_books.
    rewrite (list_insert_id _ _ _ Hb1), (list_insert_id _ _ _ Hb2).
    destruct w; reflexivity. }
  destruct (two_threads_stages sch w ot1 t1 q1 p1 ot2 t2 q2 p2
              (Entering ot1 t1 q1 p1) (Entering ot2 t2 q2 p2)
              (book_of w t1) (book_of w t2) Hwf Ht1 Ht2 Hne
              (stage_entering _ _ _ _ _) (stage_entering _ _ _ _ _))
    as (th1 & th2 & B1 & B2 & Hrun & Hs1 & Hs2).
  rewrite Hstart in Hrun. rewrite Hrun in Hdone |- *.
  cbn [fst snd] in *. injection Hdone as -> ->.
  pose proof (stage_finished_is_addOrder ot1 t1 q1 p1 w B1 Hwf Ht1 Hs1) as H1.
  assert (Hwf1 : wf_world (snd (addOrder ot1 t1 q1 p1 w)))
    by (apply wf_world_addOrder; exact Hwf).
  assert (Hbook2 : book_of (snd (addOrder ot1 t1 q1 p1 w)) t2 = book_of w t2).
  { rewrite H1. unfold book_of, valid_ticker in *. cbn [orderBooks].
    rewrite list_lookup_insert_ne by lia. reflexivity. }
  rewrite <- Hbook2 in Hs2.
  rewrite (stage_finished_is_addOrder ot2 t2 q2 p2 _ B2 Hwf1 Ht2 Hs2).
  rewrite H1. reflexivity.
Qed.

Lemma threads_on_different_tickers_witness :
  snd (run_schedule racy_schedule
         [Entering 0 5 10 (Fin 60); Entering 0 6 20 (Fin 61)] demo_world) =
  snd (addOrder 0 6 20 (Fin 61) (snd (addOrder 0 5 10 (Fin 60) demo_world))).
Proof.
  apply (threads_on_different_tickers demo_world racy_schedule
           0 5 10 (Fin 60) 0 6 20 (Fin 61)).
  - unfold demo_world. repeat apply reach_call. apply reach_init.
  - unfold valid_ticker, MAX_TICKERS. lia.
  - unfold valid_ticker, MAX_TICKERS. lia.
  - lia.
  - vm_compute. reflexivity.
Defined.
